(** * The continuous voice capture session controller of IntervueX

    A shallow embedding of [src/js/voice.js] (class [VoiceService]) and the
    properties of its session isolation, transcript assembly, auto-restart and
    error handling.

    Conventions of the embedding.
    - The controller object [this] is a record; every method is a function in
      a small state-and-output monad over a [World]: the controller, the
      engine objects constructed so far (the controller keeps a reference to
      at most one of them, but an engine that was let go can still deliver
      events), and the pending [setTimeout] tasks.
    - What the controller does to its surroundings is recorded as a list of
      [Effect]s, in program order: calls of an engine's [start], [stop] and
      [abort], invocations of the caller's two callbacks, and the scheduling
      of a timer. Console output ([log], [console.warn], [console.error]) is
      not an effect of the model. The caller's callbacks are opaque: they are
      recorded when invoked and do not call back into the controller.
    - The recognition engine belongs to the browser. How it answers during
      one call of the controller is an input of that call, the [Platform]
      record: whether the capability is present, and whether the constructor,
      [start], [stop] or [abort] throws. No method or handler calls any of
      these more than once, so one answer per operation is all it needs.
    - Event handlers are closures over the constant [sessionId]; a handler
      slot of an engine object holds [Some sessionId] when the closure is
      installed and [None] when the slot is [null].
    - The session counter is a JavaScript number that starts at [0] and only
      ever grows by [++]; it is an integer of [Z], which is exact for the
      first [2^53] increments.
    - Strings are sequences of 8-bit code units. *)

From Stdlib Require Import ZArith String Ascii Bool List Sorted Lia.
From stdpp Require Import base list strings.
Import ListNotations.

Local Open Scope Z_scope.
Local Open Scope string_scope.
Local Open Scope list_scope.

(** ** JavaScript strings *)

Module JS.

(** [WhiteSpace] and [LineTerminator] of ECMAScript, as far as they lie
    below 256: TAB, LF, VT, FF, CR, SP and NBSP. *)
Definition isWhiteSpace (c : ascii) : bool :=
  let n := nat_of_ascii c in
  (Nat.eqb n 9 || Nat.eqb n 10 || Nat.eqb n 11 || Nat.eqb n 12
   || Nat.eqb n 13 || Nat.eqb n 32 || Nat.eqb n 160)%bool.

Fixpoint trimStart (s : string) : string :=
  match s with
  | EmptyString => EmptyString
  | String c r => if isWhiteSpace c then trimStart r else s
  end.

Fixpoint trimEnd (s : string) : string :=
  match s with
  | EmptyString => EmptyString
  | String c r =>
      match trimEnd r with
      | EmptyString => if isWhiteSpace c then EmptyString else String c EmptyString
      | r' => String c r'
      end
  end.

(** [String.prototype.trim] *)
Definition trim (s : string) : string := trimEnd (trimStart s).

(** A string is truthy when it is not empty. *)
Definition truthy (s : string) : bool :=
  match s with EmptyString => false | _ => true end.

End JS.

(** ** Data *)

(** A function value handed in by the caller, known by a tag. *)
Definition Callback := nat.

(** A reference to an engine object: its position among the objects
    constructed so far. *)
Definition Handle := nat.

(** The caller's opaque question token. *)
Definition QuestionId := string.

(** One [SpeechRecognition] object: its configuration and its four handler
    slots. *)
Record Recognition := mkRecognition {
  continuous : bool;
  interimResults : bool;
  lang : string;
  maxAlternatives : Z;
  onstart : option Z;
  onend : option Z;
  onresult : option Z;
  onerror : option Z
}.

(** The fields of [VoiceService], in the order of the constructor. *)
Record VoiceService := mkVoiceService {
  recognition : option Handle;
  currentSessionId : Z;
  activeSessionId : option Z;
  isListening : bool;
  finalTranscript : string;
  interimTranscript : string;
  onTranscriptCallback : option Callback;
  onErrorCallback : option Callback;
  shouldContinue : bool;
  currentQuestionId : option QuestionId;
  debug : bool
}.

Definition constructor : VoiceService :=
  {| recognition := None;
     currentSessionId := 0;
     activeSessionId := None;
     isListening := false;
     finalTranscript := "";
     interimTranscript := "";
     onTranscriptCallback := None;
     onErrorCallback := None;
     shouldContinue := false;
     currentQuestionId := None;
     debug := false |}.

(** [results[i][0].transcript] and [results[i].isFinal]; the engine is
    configured with [maxAlternatives = 1] and every result carries its first
    alternative. *)
Record SpeechResult := mkResult {
  transcript : string;
  isFinal : bool
}.

Record ResultEvent := mkResultEvent {
  resultIndex : nat;
  results : list SpeechResult
}.

Inductive EngineEvent :=
| EvStart
| EvEnd
| EvResult (event : ResultEvent)
| EvError (error : string).

(** The task given to [setTimeout] by [startListeningForQuestion]: a closure
    over [sessionId] and [onError]. *)
Record Timer := mkTimer {
  delay : Z;
  timerSession : Z;
  timerOnError : option Callback
}.

Inductive EngineOp := OpStart | OpStop | OpAbort.

Inductive Effect :=
| EngineCall (h : Handle) (op : EngineOp)
| OnTranscript (cb : Callback) (text : string)
| OnError (cb : Callback) (message : string)
| SetTimeout (t : Timer).

(** The browser's answers during one call of the controller. *)
Record Platform := mkPlatform {
  hasSpeechRecognition : bool;
  constructThrows : bool;
  startThrows : option string;
  stopThrows : bool;
  abortThrows : bool
}.

Record World := mkWorld {
  this : VoiceService;
  engines : list Recognition;
  timers : list Timer
}.

Definition initial : World :=
  {| this := constructor; engines := []; timers := [] |}.

(** ** Field updates *)

Definition set_recognition (v : option Handle) (s : VoiceService) :=
  mkVoiceService v (currentSessionId s) (activeSessionId s) (isListening s)
    (finalTranscript s) (interimTranscript s) (onTranscriptCallback s)
    (onErrorCallback s) (shouldContinue s) (currentQuestionId s) (debug s).

Definition set_currentSessionId (v : Z) (s : VoiceService) :=
  mkVoiceService (recognition s) v (activeSessionId s) (isListening s)
    (finalTranscript s) (interimTranscript s) (onTranscriptCallback s)
    (onErrorCallback s) (shouldContinue s) (currentQuestionId s) (debug s).

Definition set_activeSessionId (v : option Z) (s : VoiceService) :=
  mkVoiceService (recognition s) (currentSessionId s) v (isListening s)
    (finalTranscript s) (interimTranscript s) (onTranscriptCallback s)
    (onErrorCallback s) (shouldContinue s) (currentQuestionId s) (debug s).

Definition set_isListening (v : bool) (s : VoiceService) :=
  mkVoiceService (recognition s) (currentSessionId s) (activeSessionId s) v
    (finalTranscript s) (interimTranscript s) (onTranscriptCallback s)
    (onErrorCallback s) (shouldContinue s) (currentQuestionId s) (debug s).

Definition set_finalTranscript (v : string) (s : VoiceService) :=
  mkVoiceService (recognition s) (currentSessionId s) (activeSessionId s)
    (isListening s) v (interimTranscript s) (onTranscriptCallback s)
    (onErrorCallback s) (shouldContinue s) (currentQuestionId s) (debug s).

Definition set_interimTranscript (v : string) (s : VoiceService) :=
  mkVoiceService (recognition s) (currentSessionId s) (activeSessionId s)
    (isListening s) (finalTranscript s) v (onTranscriptCallback s)
    (onErrorCallback s) (shouldContinue s) (currentQuestionId s) (debug s).

Definition set_onTranscriptCallback (v : option Callback) (s : VoiceService) :=
  mkVoiceService (recognition s) (currentSessionId s) (activeSessionId s)
    (isListening s) (finalTranscript s) (interimTranscript s) v
    (onErrorCallback s) (shouldContinue s) (currentQuestionId s) (debug s).

Definition set_onErrorCallback (v : option Callback) (s : VoiceService) :=
  mkVoiceService (recognition s) (currentSessionId s) (activeSessionId s)
    (isListening s) (finalTranscript s) (interimTranscript s)
    (onTranscriptCallback s) v (shouldContinue s) (currentQuestionId s)
    (debug s).

Definition set_shouldContinue (v : bool) (s : VoiceService) :=
  mkVoiceService (recognition s) (currentSessionId s) (activeSessionId s)
    (isListening s) (finalTranscript s) (interimTranscript s)
    (onTranscriptCallback s) (onErrorCallback s) v (currentQuestionId s)
    (debug s).

Definition set_currentQuestionId (v : option QuestionId) (s : VoiceService) :=
  mkVoiceService (recognition s) (currentSessionId s) (activeSessionId s)
    (isListening s) (finalTranscript s) (interimTranscript s)
    (onTranscriptCallback s) (onErrorCallback s) (shouldContinue s) v
    (debug s).

Definition set_handlers (v : option Z) (r : Recognition) : Recognition :=
  mkRecognition (continuous r) (interimResults r) (lang r) (maxAlternatives r)
    v v v v.

(** ** The monad of controller code *)

Definition M (A : Type) : Type := World -> A * World * list Effect.

Definition ret {A} (a : A) : M A := fun w => (a, w, []).

Definition bind {A B} (m : M A) (f : A -> M B) : M B :=
  fun w =>
    match m w with
    | (a, w1, e1) =>
        match f a w1 with
        | (b, w2, e2) => (b, w2, e1 ++ e2)
        end
    end.

Declare Scope js_scope.
Delimit Scope js_scope with js.
Notation "x <- m ;; k" := (bind m (fun x => k))
  (at level 100, m at next level, right associativity) : js_scope.
Notation "m ;; k" := (bind m (fun _ => k))
  (at level 100, right associativity) : js_scope.
Local Open Scope js_scope.

(** [this.f] *)
Definition read {A} (f : VoiceService -> A) : M A :=
  fun w => (f (this w), w, []).

(** [this.f = v] *)
Definition write (upd : VoiceService -> VoiceService) : M unit :=
  fun w => (tt, mkWorld (upd (this w)) (engines w) (timers w), []).

Definition emit (e : Effect) : M unit := fun w => (tt, w, [e]).

(** [if (cb) cb(arg)] *)
Definition callIf (cb : option Callback) (mk : Callback -> Effect) : M unit :=
  match cb with
  | Some c => emit (mk c)
  | None => ret tt
  end.

(** Mutation of the engine object behind a handle. *)
Definition updateEngine (h : Handle) (f : Recognition -> Recognition) : M unit :=
  fun w => (tt, mkWorld (this w) (alter f h (engines w)) (timers w), []).

(** [new SpeechRecognition()] *)
Definition newEngine : M Handle :=
  fun w =>
    (length (engines w),
     mkWorld (this w)
       (engines w ++ [mkRecognition false false "" 1 None None None None])
       (timers w),
     []).

(** [setTimeout(task, ms)] *)
Definition setTimeout (t : Timer) : M unit :=
  fun w => (tt, mkWorld (this w) (engines w) (timers w ++ [t]), [SetTimeout t]).

(** A call of an engine operation; the result is [true] when it throws. *)
Definition engineStop (p : Platform) (h : Handle) : M bool :=
  emit (EngineCall h OpStop) ;; ret (stopThrows p).

Definition engineAbort (p : Platform) (h : Handle) : M bool :=
  emit (EngineCall h OpAbort) ;; ret (abortThrows p).

(** [this.recognition.start()]: the name of the error thrown, if any. With
    [this.recognition] null the property access throws a [TypeError]. *)
Definition recognitionStart (p : Platform) : M (option string) :=
  r <- read recognition ;;
  match r with
  | None => ret (Some "TypeError")
  | Some h => emit (EngineCall h OpStart) ;; ret (startThrows p)
  end.

(** ** The methods of [VoiceService] *)

Definition set_onstart (v : option Z) (r : Recognition) : Recognition :=
  mkRecognition (continuous r) (interimResults r) (lang r) (maxAlternatives r)
    v (onend r) (onresult r) (onerror r).

Definition set_onend (v : option Z) (r : Recognition) : Recognition :=
  mkRecognition (continuous r) (interimResults r) (lang r) (maxAlternatives r)
    (onstart r) v (onresult r) (onerror r).

Definition set_onresult (v : option Z) (r : Recognition) : Recognition :=
  mkRecognition (continuous r) (interimResults r) (lang r) (maxAlternatives r)
    (onstart r) (onend r) v (onerror r).

Definition set_onerror (v : option Z) (r : Recognition) : Recognition :=
  mkRecognition (continuous r) (interimResults r) (lang r) (maxAlternatives r)
    (onstart r) (onend r) (onresult r) v.

(** The four assignments [recognition.onstart = v; ... .onerror = v]. *)
Definition set_all_handlers (v : option Z) (r : Recognition) : Recognition :=
  set_onerror v (set_onresult v (set_onend v (set_onstart v r))).

(** [continuous = true; interimResults = true; lang = 'en-US';
    maxAlternatives = 1] *)
Definition configure (r : Recognition) : Recognition :=
  mkRecognition true true "en-US" 1 (onstart r) (onend r) (onresult r)
    (onerror r).

Definition createFreshRecognition (p : Platform) : M (option Handle) :=
  if negb (hasSpeechRecognition p) then ret None
  else if constructThrows p then ret None
  else
    h <- newEngine ;;
    updateEngine h configure ;;
    ret (Some h).

Definition destroyRecognition (p : Platform) : M unit :=
  r <- read recognition ;;
  (match r with
   | Some h =>
       (* try *)
       updateEngine h (set_all_handlers None) ;;
       l <- read isListening ;;
       (if l then (_ <- engineAbort p h ;; ret tt) else ret tt) ;;
       (* catch: ignored *)
       write (set_recognition None)
   | None => ret tt
   end) ;;
  write (set_isListening false).

Definition hardReset (p : Platform) : M unit :=
  write (fun s => set_currentSessionId (currentSessionId s + 1) s) ;;
  write (set_shouldContinue false) ;;
  l <- read isListening ;;
  r <- read recognition ;;
  (match l, r with
   | true, Some h => _ <- engineAbort p h ;; ret tt
   | _, _ => ret tt
   end) ;;
  write (set_finalTranscript "") ;;
  write (set_interimTranscript "") ;;
  write (set_isListening false) ;;
  write (set_activeSessionId None) ;;
  write (set_onTranscriptCallback None) ;;
  write (set_onErrorCallback None) ;;
  destroyRecognition p.

Definition stopListening (p : Platform) : M unit :=
  write (set_shouldContinue false) ;;
  r <- read recognition ;;
  l <- read isListening ;;
  (match r, l with
   | Some h, true => _ <- engineStop p h ;; ret tt
   | _, _ => ret tt
   end) ;;
  write (set_isListening false).

Definition submitAndStop (p : Platform) : M unit :=
  write (set_shouldContinue false) ;;
  r <- read recognition ;;
  l <- read isListening ;;
  (match r, l with
   | Some h, true => _ <- engineStop p h ;; ret tt
   | _, _ => ret tt
   end) ;;
  write (set_isListening false) ;;
  write (fun s => set_currentSessionId (currentSessionId s + 1) s) ;;
  write (set_activeSessionId None).

Definition getCurrentTranscript (s : VoiceService) : string :=
  JS.trim ((finalTranscript s +:+ " ") +:+ interimTranscript s).

Definition isActive (s : VoiceService) : bool := isListening s.

Definition getSessionId (s : VoiceService) : Z := currentSessionId s.

(** *** The event handlers installed by [startListeningForQuestion]

    Each takes the [sessionId] its closure captured. *)

Definition handle_onstart (sessionId : Z) : M unit :=
  write (set_isListening true).

Definition handle_onend (p : Platform) (sessionId : Z) : M unit :=
  sc <- read shouldContinue ;;
  cur <- read currentSessionId ;;
  l <- read isListening ;;
  if (sc && Z.eqb sessionId cur && l)%bool then
    thrown <- recognitionStart p ;;
    match thrown with
    | Some _ => write (set_isListening false)
    | None => ret tt
    end
  else write (set_isListening false).

(** One turn of the loop of [onresult]: the pair is [(newFinalTranscript,
    newInterimTranscript)]. *)
Definition gather (acc : string * string) (r : SpeechResult) : string * string :=
  if isFinal r
  then (fst acc +:+ (transcript r +:+ " "), snd acc)
  else (fst acc, snd acc +:+ transcript r).

(** [for (let i = event.resultIndex; i < event.results.length; i++)] *)
Definition gatherAll (event : ResultEvent) : string * string :=
  fold_left gather (drop (resultIndex event) (results event)) ("", "").

Definition handle_onresult (sessionId : Z) (event : ResultEvent) : M unit :=
  cur <- read currentSessionId ;;
  if negb (Z.eqb sessionId cur) then ret tt
  else
    let newFinalTranscript := fst (gatherAll event) in
    let newInterimTranscript := snd (gatherAll event) in
    (if JS.truthy newFinalTranscript
     then write (fun s =>
                   set_finalTranscript (finalTranscript s +:+ newFinalTranscript) s)
     else ret tt) ;;
    f <- read finalTranscript ;;
    let currentTranscript := JS.trim ((f +:+ " ") +:+ newInterimTranscript) in
    cb <- read onTranscriptCallback ;;
    callIf cb (fun c => OnTranscript c currentTranscript).

Definition errorMessage (error : string) : string :=
  if String.eqb error "audio-capture" then "No microphone found"
  else if String.eqb error "not-allowed" then "Microphone access denied"
  else "Error: " +:+ error.

Definition benign (error : string) : bool :=
  (String.eqb error "no-speech" || String.eqb error "aborted")%bool.

Definition handle_onerror (sessionId : Z) (error : string) : M unit :=
  cur <- read currentSessionId ;;
  if negb (Z.eqb sessionId cur) then ret tt
  else if benign error then ret tt
  else
    cb <- read onErrorCallback ;;
    callIf cb (fun c => OnError c (errorMessage error)) ;;
    write (set_isListening false).

(** The body of the task scheduled after a failed start. *)
Definition retryStart (p : Platform) (sessionId : Z) (onError : option Callback)
  : M unit :=
  cur <- read currentSessionId ;;
  if Z.eqb sessionId cur then
    thrown <- recognitionStart p ;;
    match thrown with
    | Some _ => callIf onError (fun c => OnError c "Failed to start voice input")
    | None => ret tt
    end
  else ret tt.

(** [this.currentQuestionId !== questionId] *)
Definition questionChanged (cur : option QuestionId) (questionId : QuestionId)
  : bool :=
  match cur with
  | None => true
  | Some q => negb (String.eqb q questionId)
  end.

Definition startListeningForQuestion (p : Platform) (questionId : QuestionId)
    (onTranscript onError : option Callback) : M bool :=
  q <- read currentQuestionId ;;
  (if questionChanged q questionId
   then hardReset p ;; write (set_currentQuestionId (Some questionId))
   else ret tt) ;;
  write (fun s => set_currentSessionId (currentSessionId s + 1) s) ;;
  sessionId <- read currentSessionId ;;
  write (set_activeSessionId (Some sessionId)) ;;
  destroyRecognition p ;;
  fresh <- createFreshRecognition p ;;
  write (set_recognition fresh) ;;
  match fresh with
  | None =>
      callIf onError (fun c => OnError c "Speech recognition not supported") ;;
      ret false
  | Some h =>
      write (set_finalTranscript "") ;;
      write (set_interimTranscript "") ;;
      write (set_onTranscriptCallback onTranscript) ;;
      write (set_onErrorCallback onError) ;;
      write (set_shouldContinue true) ;;
      updateEngine h (set_all_handlers (Some sessionId)) ;;
      thrown <- recognitionStart p ;;
      match thrown with
      | None => ret true
      | Some name =>
          (if String.eqb name "InvalidStateError" then
             stopThrew <- engineStop p h ;;
             if (stopThrew : bool)
             then callIf onError (fun c => OnError c "Failed to start voice input")
             else setTimeout (mkTimer 100 sessionId onError)
           else callIf onError (fun c => OnError c "Failed to start voice input")) ;;
          ret false
      end
  end.

(** ** The controller in its surroundings *)

(** What can happen to a controller: a call of one of its methods, an event
    of some engine object, or a pending timer running out. *)
Inductive Input :=
| CallStart (questionId : QuestionId) (onTranscript onError : option Callback)
| CallStop
| CallSubmit
| CallHardReset
| Fire (h : Handle) (ev : EngineEvent)
| Timeout (k : nat).

(** An engine object fires an event: the handler in the slot runs, if any. *)
Definition fire (p : Platform) (h : Handle) (ev : EngineEvent) : M unit :=
  fun w =>
    match engines w !! h with
    | None => ret tt w
    | Some r =>
        match ev with
        | EvStart =>
            match onstart r with
            | Some sid => handle_onstart sid w
            | None => ret tt w
            end
        | EvEnd =>
            match onend r with
            | Some sid => handle_onend p sid w
            | None => ret tt w
            end
        | EvResult event =>
            match onresult r with
            | Some sid => handle_onresult sid event w
            | None => ret tt w
            end
        | EvError error =>
            match onerror r with
            | Some sid => handle_onerror sid error w
            | None => ret tt w
            end
        end
    end.

(** The [k]-th pending timer runs out: it leaves the queue and its task
    runs. *)
Definition timeout (p : Platform) (k : nat) : M unit :=
  fun w =>
    match timers w !! k with
    | None => ret tt w
    | Some t =>
        retryStart p (timerSession t) (timerOnError t)
          (mkWorld (this w) (engines w) (delete k (timers w)))
    end.

Definition step (p : Platform) (i : Input) : M unit :=
  match i with
  | CallStart q onT onE => _ <- startListeningForQuestion p q onT onE ;; ret tt
  | CallStop => stopListening p
  | CallSubmit => submitAndStop p
  | CallHardReset => hardReset p
  | Fire h ev => fire p h ev
  | Timeout k => timeout p k
  end.

(** The world and the effects after an input. *)
Definition after {A} (m : M A) (w : World) : World := snd (fst (m w)).
Definition effects {A} (m : M A) (w : World) : list Effect := snd (m w).
Definition result {A} (m : M A) (w : World) : A := fst (fst (m w)).

(** A run: inputs with the platform's answers during each, oldest first. *)
Fixpoint run (tr : list (Platform * Input)) (w : World) : World :=
  match tr with
  | [] => w
  | (p, i) :: rest => run rest (after (step p i) w)
  end.

Definition reachable (w : World) : Prop :=
  exists tr, w = run tr initial.

(** ** Notions used in the statements *)

Ltac unfold_methods :=
  unfold step, startListeningForQuestion, hardReset, submitAndStop,
    stopListening, destroyRecognition, createFreshRecognition,
    handle_onstart, handle_onend, handle_onresult, handle_onerror,
    retryStart, recognitionStart, engineStop, engineAbort, setTimeout,
    newEngine, updateEngine, callIf, emit, write, read, bind, ret in *.

(** Membership in a list of effects none of which is the one looked for. *)
Ltac absurd_in H :=
  repeat (destruct H as [H|H]; [discriminate H|]); destruct H.

Ltac run_js := unfold after, effects, result in *; unfold_methods; cbn.

(** The engine call of a teardown: [abort], when the controller believes it
    is listening and holds an engine. *)
Definition abortIfListening (s : VoiceService) : list Effect :=
  match isListening s, recognition s with
  | true, Some h => [EngineCall h OpAbort]
  | _, _ => []
  end.

(** The engine call of a graceful stop. *)
Definition stopIfListening (s : VoiceService) : list Effect :=
  match recognition s, isListening s with
  | Some h, true => [EngineCall h OpStop]
  | _, _ => []
  end.

(** The engine objects after the controller's engine lost its handlers. *)
Definition unhook (r : option Handle) (es : list Recognition) : list Recognition :=
  match r with
  | Some h => alter (set_all_handlers None) h es
  | None => es
  end.

(** The controller after a hard reset. *)
Definition resetState (s : VoiceService) : VoiceService :=
  mkVoiceService None (currentSessionId s + 1) None false "" "" None None
    false (currentQuestionId s) (debug s).

(** The controller after [submitAndStop]. *)
Definition submittedState (s : VoiceService) : VoiceService :=
  mkVoiceService (recognition s) (currentSessionId s + 1) None false
    (finalTranscript s) (interimTranscript s) (onTranscriptCallback s)
    (onErrorCallback s) false (currentQuestionId s) (debug s).

(** The result handler on a current event. *)
Definition appendFinal (event : ResultEvent) (s : VoiceService) : VoiceService :=
  if JS.truthy (fst (gatherAll event))
  then set_finalTranscript (finalTranscript s +:+ fst (gatherAll event)) s
  else s.

Definition consolidated (event : ResultEvent) (s : VoiceService) : string :=
  JS.trim ((finalTranscript (appendFinal event s) +:+ " ")
           +:+ snd (gatherAll event)).

(** [createFreshRecognition] returns an engine. *)
Definition canCreate (p : Platform) : bool :=
  (hasSpeechRecognition p && negb (constructThrows p))%bool.

(** The controller at the moment [createFreshRecognition] is called. *)
Definition beforeCreate (questionId : QuestionId) (s : VoiceService)
  : VoiceService :=
  let s1 :=
    if questionChanged (currentQuestionId s) questionId
    then set_currentQuestionId (Some questionId) (resetState s)
    else s in
  let sessionId := currentSessionId s1 + 1 in
  set_isListening false
    (set_recognition None
       (set_activeSessionId (Some sessionId)
          (set_currentSessionId sessionId s1))).

Arguments beforeCreate : simpl never.

(** The configured engine with the four closures of session [sid]. *)
Definition freshEngine (sid : Z) : Recognition :=
  mkRecognition true true "en-US" 1 (Some sid) (Some sid) (Some sid) (Some sid).

Definition startedState (questionId : QuestionId)
    (onTranscript onError : option Callback) (h : Handle) (s : VoiceService)
  : VoiceService :=
  let b := beforeCreate questionId s in
  mkVoiceService (Some h) (currentSessionId b) (activeSessionId b) false
    "" "" onTranscript onError true (currentQuestionId b) (debug b).

Definition failedToStart (onError : option Callback) : list Effect :=
  match onError with
  | Some c => [OnError c "Failed to start voice input"]
  | None => []
  end.

(** After [start()] was called on the new engine [h] of session [sid]: the
    value returned, the timers scheduled and the further effects. *)
Definition startOutcome (p : Platform) (h : Handle) (sid : Z)
    (onError : option Callback) : bool * list Timer * list Effect :=
  match startThrows p with
  | None => (true, [], [])
  | Some name =>
      if String.eqb name "InvalidStateError" then
        if stopThrows p
        then (false, [], EngineCall h OpStop :: failedToStart onError)
        else (false, [mkTimer 100 sid onError],
              [EngineCall h OpStop; SetTimeout (mkTimer 100 sid onError)])
      else (false, [], failedToStart onError)
  end.

(** Some handler slot of the engine object holds a closure of session
    [sid]. *)
Definition hooked (r : Recognition) (sid : Z) : Prop :=
  onstart r = Some sid \/ onend r = Some sid \/
  onresult r = Some sid \/ onerror r = Some sid.

(** The bookkeeping that every reachable world satisfies: the controller's
    reference points to an engine object; an engine object that still has a
    handler is the one the controller holds, and the session its closures
    captured is not in the future; nor is the session of a pending retry. *)
Record wf (w : World) : Prop := mkWf {
  wf_held : forall h,
    recognition (this w) = Some h -> (h < length (engines w))%nat;
  wf_hooked : forall h r sid,
    engines w !! h = Some r -> hooked r sid ->
    recognition (this w) = Some h /\ sid <= currentSessionId (this w);
  wf_timers : forall t,
    t ∈ timers w -> timerSession t <= currentSessionId (this w)
}.

(** The restart decision of the end handler. *)
Definition restarts (sessionId : Z) (s : VoiceService) : bool :=
  (shouldContinue s && Z.eqb sessionId (currentSessionId s) && isListening s)%bool.

Definition is_thrown (o : option string) : bool :=
  match o with Some _ => true | None => false end.

(** What no event handler touches: the engine objects, the timers, and of
    the controller everything but [isListening] and [finalTranscript]. *)
Record framed (w w' : World) : Prop := mkFramed {
  fr_engines : engines w' = engines w;
  fr_timers : timers w' = timers w;
  fr_recognition : recognition (this w') = recognition (this w);
  fr_session : currentSessionId (this w') = currentSessionId (this w);
  fr_active : activeSessionId (this w') = activeSessionId (this w);
  fr_interim : interimTranscript (this w') = interimTranscript (this w);
  fr_onTranscript : onTranscriptCallback (this w') = onTranscriptCallback (this w);
  fr_onError : onErrorCallback (this w') = onErrorCallback (this w);
  fr_continue : shouldContinue (this w') = shouldContinue (this w);
  fr_question : currentQuestionId (this w') = currentQuestionId (this w)
}.

(** A platform on which everything works. *)
Definition healthy : Platform := mkPlatform true false None false false.

(** A session for question Q1 in which the engine has started and delivered
    one final fragment. *)
Definition listeningWorld : World :=
  run [(healthy, CallStart "Q1" (Some 1%nat) (Some 2%nat));
       (healthy, Fire 0%nat EvStart);
       (healthy, Fire 0%nat (EvResult (mkResultEvent 0 [mkResult "hello" true])))]
    initial.

(** The three calls that open or close a session. *)
Inductive Invalidation :=
| StartQuestion (questionId : QuestionId) (onTranscript onError : option Callback)
| HardReset
| Submit.

Definition invalidate (c : Invalidation) : Input :=
  match c with
  | StartQuestion q onT onE => CallStart q onT onE
  | HardReset => CallHardReset
  | Submit => CallSubmit
  end.

(** The session identifier after each call of a sequence. *)
Fixpoint sessionTrace (cs : list (Platform * Invalidation)) (w : World) : list Z :=
  match cs with
  | [] => []
  | (p, c) :: rest =>
      let w' := after (step p (invalidate c)) w in
      getSessionId (this w') :: sessionTrace rest w'
  end.

(** The finalized fragments of a result list, each followed by a space, and
    its interim fragments, each concatenated in order. *)
Fixpoint finalText (rs : list SpeechResult) : string :=
  match rs with
  | [] => ""
  | r :: rest =>
      if isFinal r then (transcript r +:+ " ") +:+ finalText rest
      else finalText rest
  end.

Fixpoint interimText (rs : list SpeechResult) : string :=
  match rs with
  | [] => ""
  | r :: rest =>
      if isFinal r then interimText rest
      else transcript r +:+ interimText rest
  end.

(** The session of question Q1 after the engine started and finalized
    "yes" and then "it works". *)
Definition yesItWorks : World :=
  run [(healthy, CallStart "Q1" (Some 1%nat) (Some 2%nat));
       (healthy, Fire 0%nat EvStart);
       (healthy, Fire 0%nat (EvResult (mkResultEvent 0 [mkResult "yes" true])));
       (healthy, Fire 0%nat
          (EvResult (mkResultEvent 1
             [mkResult "yes" true; mkResult "it works" true])))]
    initial.

(** The next event: the interim fragment "because" after the two finalized
    results. *)
Definition becauseEvent : ResultEvent :=
  mkResultEvent 2
    [mkResult "yes" true; mkResult "it works" true; mkResult "because" false].

(** Engine events, whatever their number, leave the tracked question. *)
Definition fires (evs : list (Platform * Handle * EngineEvent))
  : list (Platform * Input) :=
  map (fun x => (fst (fst x), Fire (snd (fst x)) (snd x))) evs.

(** A platform whose engine refuses [start] because it is already running. *)
Definition busy : Platform :=
  mkPlatform true false (Some "InvalidStateError") false false.

(** The first start met a busy engine: a retry is pending. *)
Definition retryPending : World :=
  after (startListeningForQuestion busy "Q1" (Some 1%nat) (Some 2%nat)) initial.

(** An effect that reaches the caller. *)
Definition isCallback (e : Effect) : bool :=
  match e with
  | OnTranscript _ _ | OnError _ _ => true
  | EngineCall _ _ | SetTimeout _ => false
  end.

(** A platform without a recognition engine. *)
Definition noEngine : Platform := mkPlatform false false None false false.

(** ** Notions used for the rest of the controller *)

(** Strings made of white space only, and strings that begin or end with a
    white space character. *)
Fixpoint blank (s : string) : bool :=
  match s with
  | EmptyString => true
  | String c r => (JS.isWhiteSpace c && blank r)%bool
  end.

Definition startsBlank (s : string) : bool :=
  match s with
  | EmptyString => false
  | String c _ => JS.isWhiteSpace c
  end.

Fixpoint endsBlank (s : string) : bool :=
  match s with
  | EmptyString => false
  | String c EmptyString => JS.isWhiteSpace c
  | String _ r => endsBlank r
  end.

(** The four handler slots of an engine object hold the same value. *)
Definition uniform (r : Recognition) : Prop :=
  onend r = onstart r /\ onresult r = onstart r /\ onerror r = onstart r.

(** The engine object carries the configuration of
    [createFreshRecognition]. *)
Definition configured (r : Recognition) : Prop :=
  continuous r = true /\ interimResults r = true /\
  lang r = "en-US" /\ maxAlternatives r = 1.

(** More of what every reachable world satisfies. *)
Record inv (w : World) : Prop := mkInv {
  inv_wf : wf w;
  inv_engines : forall h r,
    engines w !! h = Some r -> uniform r /\ configured r;
  inv_interim : interimTranscript (this w) = "";
  inv_active :
    activeSessionId (this w) = None \/
    activeSessionId (this w) = Some (currentSessionId (this w));
  inv_session : 0 <= currentSessionId (this w);
  inv_retry : forall t,
    t ∈ timers w -> timerSession t = currentSessionId (this w) ->
    exists h,
      recognition (this w) = Some h /\
      engines w !! h = Some (freshEngine (currentSessionId (this w)))
}.

(** The inputs that empty the transcript buffer. *)
Definition clearsTranscript (i : Input) : bool :=
  match i with
  | CallStart _ _ _ | CallHardReset => true
  | CallStop | CallSubmit | Fire _ _ | Timeout _ => false
  end.

(** The inputs that can move the session counter. *)
Definition movesSession (i : Input) : bool :=
  match i with
  | CallStart _ _ _ | CallHardReset | CallSubmit => true
  | CallStop | Fire _ _ | Timeout _ => false
  end.

(** ** The caller: [InterviewEngine.toggleVoiceRecording]

    The part of [src/js/interviewEngine.js] that drives the controller: the
    recording flag, the question being answered, the answer box, the label
    of the voice button and the error toasts. The two callbacks it passes
    are closures over the page; an effect [OnTranscript] or [OnError] of the
    controller is the invocation of that closure. The question is taken to
    be set (a string) when the button is used. *)

(** What the voice button shows: "Voice Answer" or "Stop Recording". *)
Inductive ButtonLabel := VoiceAnswer | StopRecording.

Record InterviewEngine := mkInterviewEngine {
  voice : World;
  isRecording : bool;
  currentQuestion : QuestionId;
  (** the value of the answer box; [None] when the element is missing *)
  answerInput : option string;
  voiceAnswerBtn : ButtonLabel;
  (** the messages shown by [ui.showToast(..., 'error')], oldest first *)
  toasts : list string
}.

(** The tags under which the two closures are known to the controller. *)
Definition transcriptClosure : Callback := 0%nat.
Definition errorClosure : Callback := 1%nat.

(** [(transcript) => { if (answerInput) answerInput.value = transcript }] *)
Definition showTranscript (transcript : string) (ie : InterviewEngine)
  : InterviewEngine :=
  match answerInput ie with
  | Some _ =>
      mkInterviewEngine (voice ie) (isRecording ie) (currentQuestion ie)
        (Some transcript) (voiceAnswerBtn ie) (toasts ie)
  | None => ie
  end.

(** [(error) => { ui.showToast(`Voice error: ${error}`, 'error') }] *)
Definition showVoiceError (error : string) (ie : InterviewEngine)
  : InterviewEngine :=
  mkInterviewEngine (voice ie) (isRecording ie) (currentQuestion ie)
    (answerInput ie) (voiceAnswerBtn ie)
    (toasts ie ++ ["Voice error: " +:+ error]).

(** The controller's effects as the page sees them. *)
Definition deliver (ie : InterviewEngine) (e : Effect) : InterviewEngine :=
  match e with
  | OnTranscript _ transcript => showTranscript transcript ie
  | OnError _ error => showVoiceError error ie
  | EngineCall _ _ | SetTimeout _ => ie
  end.

Definition set_voice (w : World) (ie : InterviewEngine) : InterviewEngine :=
  mkInterviewEngine w (isRecording ie) (currentQuestion ie) (answerInput ie)
    (voiceAnswerBtn ie) (toasts ie).

Definition set_recording (b : bool) (l : ButtonLabel) (ie : InterviewEngine)
  : InterviewEngine :=
  mkInterviewEngine (voice ie) b (currentQuestion ie) (answerInput ie) l
    (toasts ie).

(** A call into the controller from the page: the controller moves on and
    the callbacks it invokes run against the page. *)
Definition onPage {A} (m : M A) (ie : InterviewEngine) : InterviewEngine :=
  fold_left deliver (effects m (voice ie)) (set_voice (after m (voice ie)) ie).

Definition toggleVoiceRecording (p : Platform) (ie : InterviewEngine)
  : InterviewEngine :=
  if isRecording ie then
    let ie1 := onPage (stopListening p) ie in
    let ie2 := set_recording false VoiceAnswer ie1 in
    let transcript := getCurrentTranscript (this (voice ie2)) in
    if JS.truthy transcript then showTranscript transcript ie2 else ie2
  else
    let ie1 :=
      onPage (startListeningForQuestion p (currentQuestion ie)
                (Some transcriptClosure) (Some errorClosure)) ie in
    set_recording true StopRecording ie1.

(** ** What each method does, in closed form *)

Lemma destroyRecognition_run (p : Platform) (w : World) :
  destroyRecognition p w =
    (tt,
     mkWorld (set_isListening false (set_recognition None (this w)))
       (unhook (recognition (this w)) (engines w)) (timers w),
     abortIfListening (this w)).
Proof.
  destruct w as [s es ts]; destruct s as [r n a l f i ot oe sc q d].
  run_js. destruct r as [h|], l; reflexivity.
Qed.

Lemma hardReset_run (p : Platform) (w : World) :
  hardReset p w =
    (tt,
     mkWorld (resetState (this w))
       (unhook (recognition (this w)) (engines w)) (timers w),
     abortIfListening (this w)).
Proof.
  destruct w as [s es ts]; destruct s as [r n a l f i ot oe sc q d].
  run_js. destruct r as [h|], l; reflexivity.
Qed.

Lemma submitAndStop_run (p : Platform) (w : World) :
  submitAndStop p w =
    (tt, mkWorld (submittedState (this w)) (engines w) (timers w),
     stopIfListening (this w)).
Proof.
  destruct w as [s es ts]; destruct s as [r n a l f i ot oe sc q d].
  run_js. destruct r as [h|], l; reflexivity.
Qed.

Lemma stopListening_run (p : Platform) (w : World) :
  stopListening p w =
    (tt,
     mkWorld (set_isListening false (set_shouldContinue false (this w)))
       (engines w) (timers w),
     stopIfListening (this w)).
Proof.
  destruct w as [s es ts]; destruct s as [r n a l f i ot oe sc q d].
  run_js. destruct r as [h|], l; reflexivity.
Qed.

(** A stale result or error event changes nothing and has no effect. *)
Lemma handle_onresult_stale (w : World) (sid : Z) (event : ResultEvent) :
  sid <> currentSessionId (this w) ->
  handle_onresult sid event w = (tt, w, []).
Proof.
  intros Hne. run_js.
  destruct (Z.eqb_spec sid (currentSessionId (this w))); [contradiction|].
  reflexivity.
Qed.

Lemma handle_onerror_stale (w : World) (sid : Z) (error : string) :
  sid <> currentSessionId (this w) ->
  handle_onerror sid error w = (tt, w, []).
Proof.
  intros Hne. run_js.
  destruct (Z.eqb_spec sid (currentSessionId (this w))); [contradiction|].
  reflexivity.
Qed.

Lemma handle_onresult_current (w : World) (event : ResultEvent) :
  handle_onresult (currentSessionId (this w)) event w =
    (tt, mkWorld (appendFinal event (this w)) (engines w) (timers w),
     match onTranscriptCallback (this w) with
     | Some cb => [OnTranscript cb (consolidated event (this w))]
     | None => []
     end).
Proof.
  destruct w as [s es ts]. run_js. rewrite Z.eqb_refl. cbn.
  unfold consolidated, appendFinal.
  destruct (JS.truthy (fst (gatherAll event))); cbn;
    destruct (onTranscriptCallback s); reflexivity.
Qed.

(** *** [startListeningForQuestion] in closed form *)

Lemma length_unhook (r : option Handle) (es : list Recognition) :
  length (unhook r es) = length es.
Proof. destruct r; cbn; [apply length_alter | reflexivity]. Qed.

Lemma alter_new_engine (f g : Recognition -> Recognition) (es : list Recognition)
    (d : Recognition) :
  alter f (length es) (alter g (length es) (es ++ [d])) = es ++ [f (g d)].
Proof.
  rewrite !alter_app_r_alt by lia. rewrite Nat.sub_diag. reflexivity.
Qed.

Lemma start_run_unsupported (p : Platform) (q : QuestionId)
    (onT onE : option Callback) (w : World) :
  canCreate p = false ->
  startListeningForQuestion p q onT onE w =
    (false,
     mkWorld (beforeCreate q (this w))
       (unhook (recognition (this w)) (engines w)) (timers w),
     abortIfListening (this w) ++
       match onE with
       | Some c => [OnError c "Speech recognition not supported"]
       | None => []
       end).
Proof.
  intros Hc. destruct w as [s es ts].
  unfold startListeningForQuestion, createFreshRecognition, beforeCreate.
  unfold canCreate in Hc.
  unfold bind, read, write, ret, callIf, emit; cbn -[hardReset destroyRecognition].
  destruct (questionChanged (currentQuestionId s) q);
    rewrite ?hardReset_run; cbn -[destroyRecognition];
    rewrite destroyRecognition_run; cbn;
    destruct (hasSpeechRecognition p), (constructThrows p); try discriminate;
    destruct s as [r n a l f i ot oe sc cq d]; cbn;
    destruct r, l, onE; cbn; reflexivity.
Qed.

Lemma start_run_created (p : Platform) (q : QuestionId)
    (onT onE : option Callback) (w : World) :
  canCreate p = true ->
  let h := length (engines w) in
  let sid := currentSessionId (beforeCreate q (this w)) in
  startListeningForQuestion p q onT onE w =
    (fst (fst (startOutcome p h sid onE)),
     mkWorld (startedState q onT onE h (this w))
       (unhook (recognition (this w)) (engines w) ++ [freshEngine sid])
       (timers w ++ snd (fst (startOutcome p h sid onE))),
     abortIfListening (this w) ++ EngineCall h OpStart
       :: snd (startOutcome p h sid onE)).
Proof.
  intros Hc h sid. subst h sid. destruct w as [s es ts].
  unfold startListeningForQuestion, createFreshRecognition, beforeCreate,
    startedState, startOutcome, beforeCreate, failedToStart.
  unfold canCreate in Hc.
  destruct (hasSpeechRecognition p), (constructThrows p); try discriminate.
  unfold bind, read, write, ret, callIf, emit, newEngine, updateEngine,
    recognitionStart, engineStop, setTimeout;
    cbn -[hardReset destroyRecognition String.eqb].
  destruct (questionChanged (currentQuestionId s) q);
    rewrite ?hardReset_run; cbn -[destroyRecognition String.eqb];
    rewrite destroyRecognition_run; cbn -[String.eqb];
    rewrite ?length_alter, ?length_unhook, ?alter_new_engine;
    destruct s as [r n a l f i ot oe sc cq d]; cbn -[String.eqb];
    rewrite <- (length_unhook r es), alter_new_engine, length_unhook;
    (destruct (startThrows p) as [name|];
     [destruct (String.eqb name "InvalidStateError");
      [destruct (stopThrows p)|]|]);
    destruct r, l, onE; cbn; rewrite ?app_nil_r; reflexivity.
Qed.

(** ** Reachable worlds *)

Lemma not_hooked_unhooked (r : Recognition) (sid : Z) :
  ~ hooked (set_all_handlers None r) sid.
Proof. intros [H|[H|[H|H]]]; discriminate H. Qed.

(** After the controller let its engine go, no engine object has a handler. *)
Lemma unhook_clears (w : World) (h : Handle) (r : Recognition) (sid : Z) :
  wf w ->
  unhook (recognition (this w)) (engines w) !! h = Some r ->
  ~ hooked r sid.
Proof.
  intros Hwf Hl Hh. destruct (recognition (this w)) as [h0|] eqn:Hr; cbn in Hl.
  - destruct (decide (h0 = h)) as [->|Hne].
    + rewrite list_lookup_alter_eq in Hl.
      apply fmap_Some in Hl as (r0 & _ & ->).
      exact (not_hooked_unhooked _ _ Hh).
    + rewrite list_lookup_alter_ne in Hl by exact Hne.
      destruct (wf_hooked w Hwf h r sid Hl Hh) as [Heq _]. congruence.
  - destruct (wf_hooked w Hwf h r sid Hl Hh) as [Heq _]. congruence.
Qed.

Lemma wf_initial : wf initial.
Proof.
  split; cbn.
  - discriminate.
  - intros h r sid Hl. destruct h; discriminate Hl.
  - intros t Ht. inversion Ht.
Qed.

Lemma wf_hardReset (p : Platform) (w : World) :
  wf w -> wf (after (hardReset p) w).
Proof.
  intros Hwf. unfold after. rewrite hardReset_run. cbn. split; cbn.
  - discriminate.
  - intros h r sid Hl Hh. destruct (unhook_clears w h r sid Hwf Hl Hh).
  - intros t Ht. pose proof (wf_timers w Hwf t Ht). lia.
Qed.

Lemma wf_submitAndStop (p : Platform) (w : World) :
  wf w -> wf (after (submitAndStop p) w).
Proof.
  intros Hwf. unfold after. rewrite submitAndStop_run. cbn. split; cbn.
  - apply (wf_held w Hwf).
  - intros h r sid Hl Hh.
    destruct (wf_hooked w Hwf h r sid Hl Hh). split; [assumption | lia].
  - intros t Ht. pose proof (wf_timers w Hwf t Ht). lia.
Qed.

Lemma wf_stopListening (p : Platform) (w : World) :
  wf w -> wf (after (stopListening p) w).
Proof.
  intros Hwf. unfold after. rewrite stopListening_run. cbn. split; cbn.
  - apply (wf_held w Hwf).
  - apply (wf_hooked w Hwf).
  - apply (wf_timers w Hwf).
Qed.

(** The session counter never goes down in [beforeCreate]. *)
Lemma beforeCreate_session (q : QuestionId) (s : VoiceService) :
  currentSessionId (beforeCreate q s) =
    currentSessionId s + (if questionChanged (currentQuestionId s) q then 2 else 1).
Proof.
  unfold beforeCreate. destruct (questionChanged (currentQuestionId s) q); cbn; lia.
Qed.

Lemma beforeCreate_session_lt (q : QuestionId) (s : VoiceService) :
  currentSessionId s < currentSessionId (beforeCreate q s).
Proof.
  rewrite beforeCreate_session.
  destruct (questionChanged (currentQuestionId s) q); lia.
Qed.

Lemma wf_startListeningForQuestion (p : Platform) (q : QuestionId)
    (onT onE : option Callback) (w : World) :
  wf w -> wf (after (startListeningForQuestion p q onT onE) w).
Proof.
  intros Hwf. unfold after.
  pose proof (beforeCreate_session_lt q (this w)) as Hlt.
  destruct (canCreate p) eqn:Hc.
  - rewrite (start_run_created p q onT onE w Hc).
    cbn -[beforeCreate]. split; cbn -[beforeCreate].
    + intros h [= <-]. rewrite length_app, length_unhook. cbn. lia.
    + intros h r sid Hl Hh.
      destruct (decide (h < length (engines w))%nat) as [Hin|Hout].
      * rewrite lookup_app_l in Hl by (rewrite length_unhook; exact Hin).
        destruct (unhook_clears w h r sid Hwf Hl Hh).
      * rewrite lookup_app_r in Hl by (rewrite length_unhook; lia).
        rewrite length_unhook in Hl.
        destruct (h - length (engines w))%nat as [|k] eqn:Hk; cbn in Hl;
          [|destruct k; discriminate Hl].
        injection Hl as <-. split.
        -- f_equal. lia.
        -- destruct Hh as [H|[H|[H|H]]]; cbn in H; injection H as <-;
             unfold beforeCreate;
             destruct (questionChanged _ _); cbn; lia.
    + intros t Ht. apply elem_of_app in Ht as [Ht|Ht].
      * pose proof (wf_timers w Hwf t Ht). lia.
      * unfold startOutcome in Ht.
        destruct (startThrows p) as [name|]; cbn in Ht; [|inversion Ht].
        destruct (String.eqb name "InvalidStateError"); [|inversion Ht].
        destruct (stopThrows p); cbn in Ht; [inversion Ht|].
        apply list_elem_of_singleton in Ht. subst t. cbn. lia.
  - rewrite (start_run_unsupported p q onT onE w Hc).
    cbn -[beforeCreate]. split; cbn -[beforeCreate].
    + unfold beforeCreate. cbn. discriminate.
    + intros h r sid Hl Hh. destruct (unhook_clears w h r sid Hwf Hl Hh).
    + intros t Ht. pose proof (wf_timers w Hwf t Ht). lia.
Qed.

(** *** The handlers in closed form *)

Lemma handle_onstart_run (sid : Z) (w : World) :
  handle_onstart sid w =
    (tt, mkWorld (set_isListening true (this w)) (engines w) (timers w), []).
Proof. reflexivity. Qed.

Lemma handle_onend_run (p : Platform) (sid : Z) (w : World) :
  handle_onend p sid w =
    (tt,
     mkWorld
       (if restarts sid (this w)
        then match recognition (this w) with
             | Some _ =>
                 if is_thrown (startThrows p)
                 then set_isListening false (this w) else this w
             | None => set_isListening false (this w)
             end
        else set_isListening false (this w))
       (engines w) (timers w),
     if restarts sid (this w)
     then match recognition (this w) with
          | Some h => [EngineCall h OpStart]
          | None => []
          end
     else []).
Proof.
  destruct w as [s es ts]; destruct s as [r n a l f i ot oe sc q d].
  unfold restarts. run_js.
  destruct (sc && Z.eqb sid n && l)%bool; cbn; [|reflexivity].
  destruct r; cbn; [|reflexivity].
  destruct (startThrows p); reflexivity.
Qed.

Lemma handle_onerror_current (error : string) (w : World) :
  handle_onerror (currentSessionId (this w)) error w =
    if benign error then (tt, w, [])
    else
      (tt, mkWorld (set_isListening false (this w)) (engines w) (timers w),
       match onErrorCallback (this w) with
       | Some cb => [OnError cb (errorMessage error)]
       | None => []
       end).
Proof.
  destruct w as [s es ts]. run_js. rewrite Z.eqb_refl. cbn.
  destruct (benign error); [reflexivity|]. cbn.
  destruct (onErrorCallback s); reflexivity.
Qed.

Lemma retryStart_run (p : Platform) (sid : Z) (onE : option Callback) (w : World) :
  retryStart p sid onE w =
    (tt, w,
     if Z.eqb sid (currentSessionId (this w))
     then match recognition (this w) with
          | Some h =>
              EngineCall h OpStart
                :: (if is_thrown (startThrows p) then failedToStart onE else [])
          | None => failedToStart onE
          end
     else []).
Proof.
  destruct w as [s es ts]; destruct s as [r n a l f i ot oe sc q d]. run_js.
  destruct (Z.eqb sid n); [|reflexivity].
  destruct r; cbn.
  - destruct (startThrows p); cbn; [destruct onE|]; reflexivity.
  - destruct onE; reflexivity.
Qed.

Lemma framed_refl (w : World) : framed w w.
Proof. split; reflexivity. Qed.

Lemma framed_trans (w1 w2 w3 : World) :
  framed w1 w2 -> framed w2 w3 -> framed w1 w3.
Proof. intros [] []. split; congruence. Qed.

Lemma handle_onresult_framed (sid : Z) (event : ResultEvent) (w : World) :
  framed w (after (handle_onresult sid event) w).
Proof.
  destruct (Z.eq_dec sid (currentSessionId (this w))) as [->|Hne].
  - unfold after. rewrite handle_onresult_current. cbn. unfold appendFinal.
    destruct (JS.truthy _); split; reflexivity.
  - unfold after. rewrite handle_onresult_stale by exact Hne. apply framed_refl.
Qed.

Lemma handle_onerror_framed (sid : Z) (error : string) (w : World) :
  framed w (after (handle_onerror sid error) w).
Proof.
  destruct (Z.eq_dec sid (currentSessionId (this w))) as [->|Hne].
  - unfold after. rewrite handle_onerror_current.
    destruct (benign error); cbn; split; reflexivity.
  - unfold after. rewrite handle_onerror_stale by exact Hne. apply framed_refl.
Qed.

Lemma handle_onend_framed (p : Platform) (sid : Z) (w : World) :
  framed w (after (handle_onend p sid) w).
Proof.
  unfold after. rewrite handle_onend_run. cbn.
  destruct (restarts sid (this w)), (recognition (this w)),
    (is_thrown (startThrows p)); split; reflexivity.
Qed.

Lemma fire_framed (p : Platform) (h : Handle) (ev : EngineEvent) (w : World) :
  framed w (after (fire p h ev) w).
Proof.
  unfold after, fire.
  destruct (engines w !! h) as [r|]; [|apply framed_refl].
  destruct ev.
  - destruct (onstart r); [|apply framed_refl]. split; reflexivity.
  - destruct (onend r); [apply handle_onend_framed | apply framed_refl].
  - destruct (onresult r); [apply handle_onresult_framed | apply framed_refl].
  - destruct (onerror r); [apply handle_onerror_framed | apply framed_refl].
Qed.

Lemma wf_framed (w w' : World) : framed w w' -> wf w -> wf w'.
Proof.
  intros [He Ht Hr Hs _ _ _ _ _ _] [H1 H2 H3]. split.
  - rewrite Hr, He. exact H1.
  - rewrite Hr, He, Hs. exact H2.
  - rewrite Ht, Hs. exact H3.
Qed.

Lemma wf_timeout (p : Platform) (k : nat) (w : World) :
  wf w -> wf (after (timeout p k) w).
Proof.
  intros Hwf. unfold after, timeout.
  destruct (timers w !! k) as [t|]; [|exact Hwf].
  rewrite retryStart_run. cbn. destruct Hwf as [H1 H2 H3]. split; cbn.
  - exact H1.
  - exact H2.
  - intros t' Ht'. apply H3. eapply list_elem_of_delete_inv; exact Ht'.
Qed.

Lemma wf_step (p : Platform) (i : Input) (w : World) :
  wf w -> wf (after (step p i) w).
Proof.
  intros Hwf. destruct i as [q onT onE| | | |h ev|k]; cbn [step].
  - pose proof (wf_startListeningForQuestion p q onT onE w Hwf) as H.
    unfold after, bind, ret in *.
    destruct (startListeningForQuestion p q onT onE w) as [[b w'] e].
    exact H.
  - apply wf_stopListening, Hwf.
  - apply wf_submitAndStop, Hwf.
  - apply wf_hardReset, Hwf.
  - exact (wf_framed _ _ (fire_framed p h ev w) Hwf).
  - apply wf_timeout, Hwf.
Qed.

Lemma wf_run (tr : list (Platform * Input)) (w : World) :
  wf w -> wf (run tr w).
Proof.
  revert w. induction tr as [|[p i] rest IH]; intros w Hwf; cbn.
  - exact Hwf.
  - apply IH, wf_step, Hwf.
Qed.

Lemma wf_reachable (w : World) : reachable w -> wf w.
Proof. intros [tr ->]. apply wf_run, wf_initial. Qed.

(** ** Session isolation *)

(** An event of an engine object whose closures captured a session of the
    past changes nothing, once the session counter has moved on. *)
Lemma fire_after_submit (w : World) (p p' : Platform) (h : Handle)
    (ev : EngineEvent) :
  wf w ->
  (exists event, ev = EvResult event) \/ (exists error, ev = EvError error) ->
  let w' := after (submitAndStop p) w in
  fire p' h ev w' = (tt, w', []).
Proof.
  intros Hwf Hev w'. subst w'. unfold after. rewrite submitAndStop_run.
  cbn [fst snd].
  set (w' := mkWorld (submittedState (this w)) (engines w) (timers w)).
  unfold fire. change (engines w') with (engines w).
  destruct (engines w !! h) as [r|] eqn:Hl; [|reflexivity].
  destruct Hev as [[event ->]|[error ->]].
  - destruct (onresult r) as [sid|] eqn:Hs; [|reflexivity].
    destruct (wf_hooked w Hwf h r sid Hl) as [_ Hle];
      [right; right; left; exact Hs|].
    apply handle_onresult_stale. cbn. lia.
  - destruct (onerror r) as [sid|] eqn:Hs; [|reflexivity].
    destruct (wf_hooked w Hwf h r sid Hl) as [_ Hle];
      [right; right; right; exact Hs|].
    apply handle_onerror_stale. cbn. lia.
Qed.

(** C1. A result or error event whose handler captured a session identifier
    different from the controller's current one returns at once: the world is
    unchanged (so neither part of the transcript buffer is touched) and there
    is no effect (so neither [onTranscript] nor [onError] is invoked). In
    particular, in every reachable world, a result event (or an error event)
    that any engine object delivers after [submitAndStop] is discarded and
    [getCurrentTranscript] still returns what it returned before the
    submit. *)
Theorem stale_events_are_discarded (w : World) (sid : Z) (event : ResultEvent)
    (error : string) (p p' : Platform) (h : Handle) :
  sid <> currentSessionId (this w) ->
  handle_onresult sid event w = (tt, w, []) /\
  handle_onerror sid error w = (tt, w, []) /\
  (reachable w ->
   let w' := after (submitAndStop p) w in
   fire p' h (EvResult event) w' = (tt, w', []) /\
   fire p' h (EvError error) w' = (tt, w', []) /\
   getCurrentTranscript (this (after (fire p' h (EvResult event)) w'))
     = getCurrentTranscript (this w)).
Proof.
  intros Hne. split; [|split].
  - apply handle_onresult_stale, Hne.
  - apply handle_onerror_stale, Hne.
  - intros Hr w'. apply wf_reachable in Hr.
    assert (H1 : fire p' h (EvResult event) w' = (tt, w', []))
      by (apply fire_after_submit; [exact Hr | left; eexists; reflexivity]).
    split; [exact H1|]. split.
    + apply fire_after_submit; [exact Hr | right; eexists; reflexivity].
    + unfold after at 1. rewrite H1. cbn. subst w'. unfold after.
      rewrite submitAndStop_run. reflexivity.
Qed.

Lemma stale_events_are_discarded_witness :
  1 <> currentSessionId (this listeningWorld) /\
  reachable listeningWorld /\
  handle_onresult 1 (mkResultEvent 0 [mkResult "late" true]) listeningWorld
    = (tt, listeningWorld, []) /\
  getCurrentTranscript
    (this (after (fire healthy 0%nat
                    (EvResult (mkResultEvent 0 [mkResult "late" true])))
             (after (submitAndStop healthy) listeningWorld)))
    = "hello".
Proof.
  assert (Hne : 1 <> currentSessionId (this listeningWorld))
    by (vm_compute; discriminate).
  assert (Hr : reachable listeningWorld) by (eexists; reflexivity).
  destruct (stale_events_are_discarded listeningWorld 1
              (mkResultEvent 0 [mkResult "late" true]) "network"
              healthy healthy 0%nat Hne) as (H1 & _ & H3).
  destruct (H3 Hr) as (_ & _ & H4).
  split; [exact Hne|]. split; [exact Hr|]. split; [exact H1|].
  rewrite H4. reflexivity.
Defined.

(** ** Session monotonicity *)

Lemma after_start (p : Platform) (q : QuestionId) (onT onE : option Callback)
    (w : World) :
  after (step p (CallStart q onT onE)) w
    = after (startListeningForQuestion p q onT onE) w.
Proof.
  unfold after. cbn [step]. unfold bind, ret.
  destruct (startListeningForQuestion p q onT onE w) as [[b w'] e].
  reflexivity.
Qed.

Lemma start_session (p : Platform) (q : QuestionId) (onT onE : option Callback)
    (w : World) :
  currentSessionId (this (after (startListeningForQuestion p q onT onE) w))
    = currentSessionId (beforeCreate q (this w)).
Proof.
  unfold after. destruct (canCreate p) eqn:Hc.
  - rewrite (start_run_created p q onT onE w Hc). reflexivity.
  - rewrite (start_run_unsupported p q onT onE w Hc). reflexivity.
Qed.

Lemma invalidate_increases (p : Platform) (c : Invalidation) (w : World) :
  getSessionId (this w) < getSessionId (this (after (step p (invalidate c)) w)).
Proof.
  unfold getSessionId. destruct c as [q onT onE| |]; cbn [invalidate].
  - rewrite after_start, start_session. apply beforeCreate_session_lt.
  - unfold after. cbn [step]. rewrite hardReset_run. cbn. lia.
  - unfold after. cbn [step]. rewrite submitAndStop_run. cbn. lia.
Qed.

Lemma sessionTrace_above (cs : list (Platform * Invalidation)) (w : World) :
  Forall (Z.lt (getSessionId (this w))) (sessionTrace cs w).
Proof.
  revert w. induction cs as [|[p c] rest IH]; intros w; cbn.
  - constructor.
  - pose proof (invalidate_increases p c w) as Hlt. constructor.
    + exact Hlt.
    + eapply Forall_impl; [apply IH|]. cbn. intros x Hx. lia.
Qed.

Lemma sessionTrace_sorted (cs : list (Platform * Invalidation)) (w : World) :
  StronglySorted Z.lt (getSessionId (this w) :: sessionTrace cs w).
Proof.
  revert w. induction cs as [|[p c] rest IH]; intros w.
  - constructor; constructor.
  - constructor.
    + exact (IH (after (step p (invalidate c)) w)).
    + exact (sessionTrace_above ((p, c) :: rest) w).
Qed.

Lemma sorted_lt_NoDup (l : list Z) : StronglySorted Z.lt l -> NoDup l.
Proof.
  induction 1 as [|x l Hs IH Hall]; constructor.
  - intros Hin. rewrite Forall_forall in Hall. specialize (Hall x Hin). lia.
  - exact IH.
Qed.

(** C2. Each call of [startListeningForQuestion], [hardReset] or
    [submitAndStop], from any world and whatever the platform does, leaves
    the session identifier strictly greater than it found it; so along every
    sequence of such calls the identifiers read after each call, headed by
    the one before the first, are strictly increasing, and no value occurs
    twice. *)
Theorem session_identifier_strictly_increasing
    (cs : list (Platform * Invalidation)) (w : World) :
  (forall p c,
     getSessionId (this w) < getSessionId (this (after (step p (invalidate c)) w))) /\
  StronglySorted Z.lt (getSessionId (this w) :: sessionTrace cs w) /\
  NoDup (getSessionId (this w) :: sessionTrace cs w).
Proof.
  split; [|split].
  - intros p c. apply invalidate_increases.
  - apply sessionTrace_sorted.
  - apply sorted_lt_NoDup, sessionTrace_sorted.
Qed.

(** ** Transcript assembly *)

Lemma append_assoc (a b c : string) : (a +:+ b) +:+ c = a +:+ (b +:+ c).
Proof.
  induction a as [|x a IH]; [reflexivity|].
  change (String x ((a +:+ b) +:+ c) = String x (a +:+ (b +:+ c))).
  f_equal. exact IH.
Qed.

Lemma append_empty_r (a : string) : a +:+ "" = a.
Proof.
  induction a as [|x a IH]; [reflexivity|].
  change (String x (a +:+ "") = String x a).
  f_equal. exact IH.
Qed.

Lemma gather_fold (rs : list SpeechResult) (a b : string) :
  fold_left gather rs (a, b) = (a +:+ finalText rs, b +:+ interimText rs).
Proof.
  revert a b. induction rs as [|r rest IH]; intros a b; cbn.
  - rewrite !append_empty_r. reflexivity.
  - replace (gather (a, b) r)
      with (if isFinal r then (a +:+ (transcript r +:+ " "), b)
            else (a, b +:+ transcript r)) by reflexivity.
    destruct (isFinal r); rewrite IH, append_assoc; reflexivity.
Qed.

Lemma gatherAll_split (event : ResultEvent) :
  gatherAll event =
    (finalText (drop (resultIndex event) (results event)),
     interimText (drop (resultIndex event) (results event))).
Proof. unfold gatherAll. rewrite gather_fold. reflexivity. Qed.

(** The final buffer only ever grows by the finalized fragments of the
    event, each followed by one space. *)
Lemma final_buffer_appends (w : World) (event : ResultEvent) :
  finalTranscript
    (this (after (handle_onresult (currentSessionId (this w)) event) w))
  = finalTranscript (this w)
      +:+ finalText (drop (resultIndex event) (results event)).
Proof.
  unfold after. rewrite handle_onresult_current. cbn. unfold appendFinal.
  rewrite gatherAll_split. cbn.
  destruct (finalText (drop (resultIndex event) (results event))) eqn:E; cbn.
  - rewrite append_empty_r. reflexivity.
  - reflexivity.
Qed.

(** No result event writes the interim buffer. *)
Lemma interim_buffer_untouched (w : World) (sid : Z) (event : ResultEvent) :
  interimTranscript (this (after (handle_onresult sid event) w))
    = interimTranscript (this w).
Proof. apply (fr_interim _ _ (handle_onresult_framed sid event w)). Qed.

(** C3, as stated, fails: with the final fragments "yes " and "it works " in
    the buffer and "because" the interim fragment of the latest event,
    [getCurrentTranscript] returns "yes it works", and the transcript handed
    to the callback has two spaces before "because". *)
Lemma getCurrentTranscript_yes_it_works_counterexample :
  let w := after (fire healthy 0%nat (EvResult becauseEvent)) yesItWorks in
  finalTranscript (this w) = "yes " +:+ "it works " /\
  gatherAll becauseEvent = ("", "because") /\
  getCurrentTranscript (this w) = "yes it works" /\
  getCurrentTranscript (this w) <> "yes it works because" /\
  effects (fire healthy 0%nat (EvResult becauseEvent)) yesItWorks
    = [OnTranscript 1%nat "yes it works  because"].
Proof.
  cbv zeta. repeat split; try (vm_compute; reflexivity).
  vm_compute. discriminate.
Qed.

(** C3, amended. With "yes " and "it works " appended to the final buffer and
    a current result event whose only new fragment is the interim "because",
    the consolidated transcript handed to [onTranscript] is the trimmed
    [final + " " + interim], that is "yes it works  because": the ends are
    trimmed once, the space that closes the last finalized fragment and the
    joining space both stay. [getCurrentTranscript] composes the two buffer
    parts by the same formula. *)
Theorem consolidated_yes_it_works_because (w : World) (cb : Callback)
    (event : ResultEvent) (s : VoiceService) :
  finalTranscript (this w) = "yes " +:+ "it works " ->
  gatherAll event = ("", "because") ->
  onTranscriptCallback (this w) = Some cb ->
  effects (handle_onresult (currentSessionId (this w)) event) w
    = [OnTranscript cb "yes it works  because"] /\
  finalTranscript
    (this (after (handle_onresult (currentSessionId (this w)) event) w))
    = "yes it works " /\
  (finalTranscript s = "yes " +:+ "it works " ->
   interimTranscript s = "because" ->
   getCurrentTranscript s = "yes it works  because").
Proof.
  intros Hf Hg Hcb. unfold effects, after.
  rewrite handle_onresult_current. cbn.
  unfold consolidated, appendFinal. rewrite Hg, Hcb. cbn. rewrite Hf.
  split; [reflexivity|]. split; [reflexivity|].
  intros Hsf Hsi. unfold getCurrentTranscript. rewrite Hsf, Hsi. reflexivity.
Qed.

Lemma consolidated_yes_it_works_because_witness :
  finalTranscript (this yesItWorks) = "yes " +:+ "it works " /\
  gatherAll becauseEvent = ("", "because") /\
  onTranscriptCallback (this yesItWorks) = Some 1%nat /\
  effects (handle_onresult (currentSessionId (this yesItWorks)) becauseEvent)
    yesItWorks
    = [OnTranscript 1%nat "yes it works  because"] /\
  getCurrentTranscript (set_interimTranscript "because" (this yesItWorks))
    = "yes it works  because".
Proof.
  assert (Hf : finalTranscript (this yesItWorks) = "yes " +:+ "it works ")
    by reflexivity.
  assert (Hg : gatherAll becauseEvent = ("", "because")) by reflexivity.
  assert (Hcb : onTranscriptCallback (this yesItWorks) = Some 1%nat)
    by reflexivity.
  destruct (consolidated_yes_it_works_because yesItWorks 1%nat becauseEvent
              (set_interimTranscript "because" (this yesItWorks)) Hf Hg Hcb)
    as (H1 & _ & H3).
  split; [exact Hf|]. split; [exact Hg|]. split; [exact Hcb|].
  split; [exact H1|]. apply H3; reflexivity.
Defined.

(** C4, the code at the failing input. In a fresh session whose engine has
    started, a current result event carries the single interim fragment
    "because": the callback receives "because", yet the interim buffer is
    still empty afterwards and [getCurrentTranscript] returns the empty
    string, where the claim has the buffer replaced by "because". *)
Theorem interim_fragment_not_stored :
  let w :=
    run [(healthy, CallStart "Q1" (Some 1%nat) (Some 2%nat));
         (healthy, Fire 0%nat EvStart)] initial in
  let m := fire healthy 0%nat
             (EvResult (mkResultEvent 0 [mkResult "because" false])) in
  engines w !! 0%nat = Some (freshEngine (currentSessionId (this w))) /\
  effects m w = [OnTranscript 1%nat "because"] /\
  interimTranscript (this (after m w)) = "" /\
  getCurrentTranscript (this (after m w)) = "".
Proof. cbv zeta. repeat split; vm_compute; reflexivity. Qed.

(** ** Question change *)

Lemma start_question (p : Platform) (q : QuestionId) (onT onE : option Callback)
    (w : World) :
  currentQuestionId (this (after (startListeningForQuestion p q onT onE) w))
    = Some q.
Proof.
  assert (H : currentQuestionId (beforeCreate q (this w)) = Some q).
  { unfold beforeCreate.
    destruct (currentQuestionId (this w)) as [q0|] eqn:Hq; cbn.
    - destruct (String.eqb_spec q0 q) as [->|Hne]; cbn; [exact Hq | reflexivity].
    - reflexivity. }
  unfold after. destruct (canCreate p) eqn:Hc.
  - rewrite (start_run_created p q onT onE w Hc). exact H.
  - rewrite (start_run_unsupported p q onT onE w Hc). exact H.
Qed.

Lemma run_fires_framed (evs : list (Platform * Handle * EngineEvent)) (w : World) :
  framed w (run (fires evs) w).
Proof.
  revert w. induction evs as [|[[p h] ev] rest IH]; intros w; cbn.
  - apply framed_refl.
  - eapply framed_trans; [apply (fire_framed p h ev w) | apply IH].
Qed.

Lemma start_changed_clears (p : Platform) (q : QuestionId)
    (onT onE : option Callback) (w : World) :
  questionChanged (currentQuestionId (this w)) q = true ->
  finalTranscript (this (after (startListeningForQuestion p q onT onE) w)) = "" /\
  interimTranscript (this (after (startListeningForQuestion p q onT onE) w)) = "".
Proof.
  intros Hq. unfold after. destruct (canCreate p) eqn:Hc.
  - rewrite (start_run_created p q onT onE w Hc). split; reflexivity.
  - rewrite (start_run_unsupported p q onT onE w Hc). cbn.
    unfold beforeCreate. rewrite Hq. split; reflexivity.
Qed.

(** C5. Start listening for one question, let the engines deliver any events
    (or none), and start listening for a different question without a stop
    in between: when the second call returns both parts of the transcript
    buffer are empty and [getCurrentTranscript] returns the empty string,
    whatever the world was before and whatever the platform does. *)
Theorem question_change_empties_transcript (w : World) (p1 p2 : Platform)
    (q1 q2 : QuestionId) (onT1 onE1 onT2 onE2 : option Callback)
    (pending : list (Platform * Handle * EngineEvent)) :
  q1 <> q2 ->
  let w1 := after (startListeningForQuestion p1 q1 onT1 onE1) w in
  let w2 :=
    after (startListeningForQuestion p2 q2 onT2 onE2) (run (fires pending) w1) in
  finalTranscript (this w2) = "" /\
  interimTranscript (this w2) = "" /\
  getCurrentTranscript (this w2) = "".
Proof.
  intros Hne w1 w2.
  assert (Hq : questionChanged
                 (currentQuestionId (this (run (fires pending) w1))) q2 = true).
  { rewrite (fr_question _ _ (run_fires_framed pending w1)).
    subst w1. rewrite start_question. cbn.
    destruct (String.eqb_spec q1 q2); [contradiction | reflexivity]. }
  destruct (start_changed_clears p2 q2 onT2 onE2 _ Hq) as [Hf Hi].
  subst w2. split; [exact Hf|]. split; [exact Hi|].
  unfold getCurrentTranscript. rewrite Hf, Hi. reflexivity.
Qed.

Lemma question_change_empties_transcript_witness :
  "Q1" <> "Q2" /\
  getCurrentTranscript
    (this (after (startListeningForQuestion healthy "Q2" (Some 3%nat) (Some 4%nat))
             (run (fires [(healthy, 0%nat, EvStart);
                          (healthy, 0%nat,
                           EvResult (mkResultEvent 0 [mkResult "hello" true]))])
                (after (startListeningForQuestion healthy "Q1"
                          (Some 1%nat) (Some 2%nat))
                   initial))))
    = "".
Proof.
  assert (Hne : "Q1" <> "Q2") by discriminate.
  split; [exact Hne|].
  apply (question_change_empties_transcript initial healthy healthy "Q1" "Q2"
           (Some 1%nat) (Some 2%nat) (Some 3%nat) (Some 4%nat)
           [(healthy, 0%nat, EvStart);
            (healthy, 0%nat, EvResult (mkResultEvent 0 [mkResult "hello" true]))]
           Hne).
Defined.

(** ** Auto-restart *)

Lemma restarts_spec (sid : Z) (s : VoiceService) :
  restarts sid s = true <->
  shouldContinue s = true /\ sid = currentSessionId s /\ isListening s = true.
Proof.
  unfold restarts. rewrite !andb_true_iff, Z.eqb_eq. tauto.
Qed.

(** C6. When an engine object whose end handler is installed fires its end
    event, the controller calls that engine's [start] exactly when the
    continuation flag is true, the session the handler captured is the
    current one and the controller believes it is listening; nothing else is
    called, so no error is surfaced. It stays listening only when that
    restart did not throw; in every other case it is marked not listening.
    After [stopListening] the end event restarts nothing. *)
Theorem end_event_restarts_exactly_when (w : World) (p p1 p2 : Platform)
    (h : Handle) (r : Recognition) (sid : Z) :
  reachable w ->
  engines w !! h = Some r ->
  onend r = Some sid ->
  let m := fire p h EvEnd in
  (restarts sid (this w) = true <->
     shouldContinue (this w) = true /\ sid = currentSessionId (this w) /\
     isListening (this w) = true) /\
  effects m w = (if restarts sid (this w) then [EngineCall h OpStart] else []) /\
  isListening (this (after m w))
    = (restarts sid (this w) && negb (is_thrown (startThrows p)))%bool /\
  framed w (after m w) /\
  finalTranscript (this (after m w)) = finalTranscript (this w) /\
  effects (fire p2 h EvEnd) (after (stopListening p1) w) = [] /\
  isListening (this (after (fire p2 h EvEnd) (after (stopListening p1) w)))
    = false.
Proof.
  intros Hr Hl Hend m. apply wf_reachable in Hr.
  destruct (wf_hooked w Hr h r sid Hl) as [Hrec _]; [right; left; exact Hend|].
  split; [apply restarts_spec|].
  assert (Hm : m w = handle_onend p sid w).
  { subst m. unfold fire. rewrite Hl, Hend. reflexivity. }
  assert (Hs : fire p2 h EvEnd (after (stopListening p1) w)
               = handle_onend p2 sid (after (stopListening p1) w)).
  { unfold fire, after. rewrite stopListening_run. cbn [fst snd engines].
    rewrite Hl, Hend. reflexivity. }
  unfold effects, after in *. rewrite Hm, Hs, !handle_onend_run.
  rewrite stopListening_run. cbn. rewrite Hrec.
  split; [destruct (restarts sid (this w)); reflexivity|].
  split.
  { destruct (restarts sid (this w)) eqn:Hgo; cbn; [|reflexivity].
    apply restarts_spec in Hgo as (_ & _ & Hlis).
    destruct (is_thrown (startThrows p)); cbn; [reflexivity | exact Hlis]. }
  split.
  { pose proof (handle_onend_framed p sid w) as Hf. unfold after in Hf.
    rewrite handle_onend_run, Hrec in Hf. exact Hf. }
  split.
  { destruct (restarts sid (this w)), (is_thrown (startThrows p)); reflexivity. }
  unfold restarts. cbn. split; reflexivity.
Qed.

Lemma end_event_restarts_exactly_when_witness :
  reachable listeningWorld /\
  engines listeningWorld !! 0%nat = Some (freshEngine 2) /\
  onend (freshEngine 2) = Some 2 /\
  effects (fire healthy 0%nat EvEnd) listeningWorld = [EngineCall 0%nat OpStart] /\
  effects (fire healthy 0%nat EvEnd) (after (stopListening healthy) listeningWorld)
    = [].
Proof.
  assert (Hr : reachable listeningWorld) by (eexists; reflexivity).
  assert (Hl : engines listeningWorld !! 0%nat = Some (freshEngine 2))
    by reflexivity.
  assert (He : onend (freshEngine 2) = Some 2) by reflexivity.
  destruct (end_event_restarts_exactly_when listeningWorld healthy healthy
              healthy 0%nat (freshEngine 2) 2 Hr Hl He)
    as (_ & H2 & _ & _ & _ & H6 & _).
  split; [exact Hr|]. split; [exact Hl|]. split; [exact He|].
  split; [exact H2 | exact H6].
Defined.

(** ** Failure to start *)

(** C7, as stated, fails: the retry is pending with the error callback of
    the caller, the session is superseded by [submitAndStop] before the timer
    runs out, and the task then does nothing; no error reaches the
    callback. *)
Lemma superseded_retry_counterexample :
  timers retryPending = [mkTimer 100 2 (Some 2%nat)] /\
  effects (timeout busy 0) (after (submitAndStop healthy) retryPending) = [] /\
  ~ In (OnError 2%nat "Failed to start voice input")
      (effects (timeout busy 0) (after (submitAndStop healthy) retryPending)).
Proof.
  split; [reflexivity|]. split; [reflexivity|].
  intros H. exact H.
Qed.

Lemma lookup_last_timer (ts : list Timer) (t : Timer) :
  (ts ++ [t]) !! length ts = Some t.
Proof.
  rewrite lookup_app_r by lia. rewrite Nat.sub_diag. reflexivity.
Qed.

Lemma delete_last_timer (ts : list Timer) (t : Timer) :
  delete (length ts) (ts ++ [t]) = ts.
Proof.
  induction ts as [|x ts IH]; cbn; [reflexivity|]. f_equal. exact IH.
Qed.

(** A start failure that is not retried: [start] throws something other
    than [InvalidStateError], or the [stop] before the retry throws as well.
    The error is surfaced at once and no timer is scheduled. *)
Lemma start_failure_not_retried (p : Platform) (q : QuestionId)
    (onT onE : option Callback) (w : World) (name : string) :
  canCreate p = true ->
  startThrows p = Some name ->
  String.eqb name "InvalidStateError" = false \/ stopThrows p = true ->
  let m := startListeningForQuestion p q onT onE in
  result m w = false /\
  timers (after m w) = timers w /\
  exists calls,
    effects m w = calls ++ failedToStart onE /\
    Forall (fun e => isCallback e = false) calls.
Proof.
  intros Hc Hst Hor m. subst m. unfold result, effects, after.
  rewrite (start_run_created p q onT onE w Hc). unfold startOutcome.
  rewrite Hst. cbv beta iota.
  assert (Hab : Forall (fun e => isCallback e = false)
                  (abortIfListening (this w))).
  { unfold abortIfListening.
    destruct (isListening (this w)), (recognition (this w));
      repeat constructor. }
  destruct (String.eqb name "InvalidStateError") eqn:Hname.
  - destruct Hor as [Hor|Hor]; [discriminate Hor|]. rewrite Hor.
    cbn [fst snd this timers engines]. rewrite app_nil_r.
    split; [reflexivity|]. split; [reflexivity|].
    exists (abortIfListening (this w)
              ++ [EngineCall (length (engines w)) OpStart;
                  EngineCall (length (engines w)) OpStop]).
    split.
    + rewrite <- app_assoc. reflexivity.
    + apply Forall_app. split; [exact Hab | repeat constructor].
  - cbn [fst snd this timers engines]. rewrite app_nil_r.
    split; [reflexivity|]. split; [reflexivity|].
    exists (abortIfListening (this w)
              ++ [EngineCall (length (engines w)) OpStart]).
    split.
    + rewrite <- app_assoc. reflexivity.
    + apply Forall_app. split; [exact Hab | repeat constructor].
Qed.

(** C7, amended. When the engine's [start] throws [InvalidStateError] during
    [startListeningForQuestion] (and the [stop] that follows does not throw),
    the call returns false, surfaces no error, and schedules exactly one
    retry, 100 ms later, that carries the session captured at creation. When
    the timer runs out it leaves the queue and schedules nothing; the task
    calls [start] only if the session identifier still equals the captured
    one, and hands "Failed to start voice input" to the error callback if
    that [start] throws. If the session was superseded in the meantime the
    task does nothing at all: no [start] and no error callback. *)
Theorem transient_start_failure_retried_once (p : Platform) (q : QuestionId)
    (onT onE : option Callback) (w : World) (p' : Platform) (w' : World) :
  canCreate p = true ->
  startThrows p = Some "InvalidStateError" ->
  stopThrows p = false ->
  let m := startListeningForQuestion p q onT onE in
  let h := length (engines w) in
  let sid := currentSessionId (this (after m w)) in
  let t := mkTimer 100 sid onE in
  result m w = false /\
  effects m w =
    abortIfListening (this w)
      ++ [EngineCall h OpStart; EngineCall h OpStop; SetTimeout t] /\
  timers (after m w) = timers w ++ [t] /\
  timers (after (timeout p' (length (timers w))) (after m w)) = timers w /\
  effects (timeout p' (length (timers w))) (after m w)
    = EngineCall h OpStart
        :: (if is_thrown (startThrows p') then failedToStart onE else []) /\
  (sid <> currentSessionId (this w') -> retryStart p' sid onE w' = (tt, w', [])) /\
  (sid = currentSessionId (this w') ->
   forall h', recognition (this w') = Some h' ->
   retryStart p' sid onE w' =
     (tt, w',
      EngineCall h' OpStart
        :: (if is_thrown (startThrows p') then failedToStart onE else []))).
Proof.
  intros Hc Hst Hsp m h sid t. subst m h sid t.
  unfold result, effects, after.
  rewrite (start_run_created p q onT onE w Hc).
  assert (Heqb : String.eqb "InvalidStateError" "InvalidStateError" = true)
    by reflexivity.
  unfold startOutcome. rewrite Hst. cbv beta iota. rewrite Heqb, Hsp.
  cbn [fst snd this timers engines].
  split; [reflexivity|]. split; [reflexivity|]. split; [reflexivity|].
  unfold timeout. cbn [timers this engines].
  rewrite lookup_last_timer, delete_last_timer, !retryStart_run.
  cbn [fst snd this timers engines timerSession timerOnError].
  change (currentSessionId (startedState q onT onE (length (engines w)) (this w)))
    with (currentSessionId (beforeCreate q (this w))).
  rewrite Z.eqb_refl. cbn [recognition startedState].
  split; [reflexivity|]. split; [reflexivity|]. split.
  - intros Hne.
    destruct (Z.eqb_spec (currentSessionId (beforeCreate q (this w)))
                (currentSessionId (this w'))); [contradiction | reflexivity].
  - intros Heq h' Hrec. rewrite Heq, Z.eqb_refl, Hrec. reflexivity.
Qed.

Lemma transient_start_failure_retried_once_witness :
  canCreate busy = true /\
  startThrows busy = Some "InvalidStateError" /\
  stopThrows busy = false /\
  effects (startListeningForQuestion busy "Q1" (Some 1%nat) (Some 2%nat)) initial
    = [EngineCall 0%nat OpStart; EngineCall 0%nat OpStop;
       SetTimeout (mkTimer 100 2 (Some 2%nat))] /\
  effects (timeout busy 0) retryPending
    = [EngineCall 0%nat OpStart; OnError 2%nat "Failed to start voice input"] /\
  retryStart busy 2 (Some 2%nat) (after (hardReset healthy) retryPending)
    = (tt, after (hardReset healthy) retryPending, []).
Proof.
  assert (H1 : canCreate busy = true) by reflexivity.
  assert (H2 : startThrows busy = Some "InvalidStateError") by reflexivity.
  assert (H3 : stopThrows busy = false) by reflexivity.
  destruct (transient_start_failure_retried_once busy "Q1" (Some 1%nat)
              (Some 2%nat) initial busy (after (hardReset healthy) retryPending)
              H1 H2 H3)
    as (_ & He & _ & _ & Hf & Hstale & _).
  split; [exact H1|]. split; [exact H2|]. split; [exact H3|].
  split; [exact He|]. split; [exact Hf|].
  apply Hstale. vm_compute. discriminate.
Defined.

(** ** Error events *)

Lemma benign_spec (error : string) :
  benign error = true <-> error = "no-speech" \/ error = "aborted".
Proof.
  unfold benign. rewrite orb_true_iff, !String.eqb_eq. tauto.
Qed.

Lemma errorMessage_generic (error : string) :
  error <> "audio-capture" -> error <> "not-allowed" ->
  errorMessage error = "Error: " +:+ error.
Proof.
  intros H1 H2. unfold errorMessage.
  destruct (String.eqb_spec error "audio-capture"); [contradiction|].
  destruct (String.eqb_spec error "not-allowed"); [contradiction|].
  reflexivity.
Qed.

(** C8, as stated, fails: the controller is listening in the current
    session, the engine reports 'no-speech' (or 'aborted'), and the
    controller is still marked as listening afterwards. *)
Lemma benign_error_keeps_listening_counterexample :
  engines listeningWorld !! 0%nat
    = Some (freshEngine (currentSessionId (this listeningWorld))) /\
  isListening (this listeningWorld) = true /\
  isListening (this (after (fire healthy 0%nat (EvError "no-speech"))
                       listeningWorld)) = true /\
  isListening (this (after (fire healthy 0%nat (EvError "aborted"))
                       listeningWorld)) = true.
Proof. repeat split. Qed.

(** C8, amended. An error event of the current session whose kind is not
    benign marks the controller as not listening and changes nothing else;
    the error callback, if there is one, receives "No microphone found" for
    'audio-capture', "Microphone access denied" for 'not-allowed' and
    "Error: <kind>" for any other kind. The benign kinds 'no-speech' and
    'aborted' produce no callback and leave the whole state as it is, the
    listening mark included. No error event, stale or current, lets go of
    the recognition handle or touches an engine object. *)
Theorem error_event_handling (w : World) (error : string) (sid : Z) :
  let m := handle_onerror (currentSessionId (this w)) error in
  (benign error = true <-> error = "no-speech" \/ error = "aborted") /\
  (benign error = true -> m w = (tt, w, [])) /\
  (benign error = false ->
   m w =
     (tt, mkWorld (set_isListening false (this w)) (engines w) (timers w),
      match onErrorCallback (this w) with
      | Some cb => [OnError cb (errorMessage error)]
      | None => []
      end)) /\
  errorMessage "audio-capture" = "No microphone found" /\
  errorMessage "not-allowed" = "Microphone access denied" /\
  (error <> "audio-capture" -> error <> "not-allowed" ->
   errorMessage error = "Error: " +:+ error) /\
  recognition (this (after (handle_onerror sid error) w)) = recognition (this w) /\
  engines (after (handle_onerror sid error) w) = engines w.
Proof.
  intros m. subst m. split; [apply benign_spec|].
  split; [intros Hb; rewrite handle_onerror_current, Hb; reflexivity|].
  split; [intros Hb; rewrite handle_onerror_current, Hb; reflexivity|].
  split; [reflexivity|]. split; [reflexivity|].
  split; [apply errorMessage_generic|].
  destruct (handle_onerror_framed sid error w) as [He _ Hr _ _ _ _ _ _ _].
  split; [exact Hr | exact He].
Qed.

Lemma error_event_handling_witness :
  benign "network" = false /\
  benign "no-speech" = true /\
  "network" <> "audio-capture" /\
  "network" <> "not-allowed" /\
  handle_onerror (currentSessionId (this listeningWorld)) "network" listeningWorld
    = (tt,
       mkWorld (set_isListening false (this listeningWorld))
         (engines listeningWorld) (timers listeningWorld),
       [OnError 2%nat (errorMessage "network")]) /\
  errorMessage "network" = "Error: network" /\
  handle_onerror (currentSessionId (this listeningWorld)) "no-speech"
    listeningWorld = (tt, listeningWorld, []).
Proof.
  assert (Hb : benign "network" = false) by reflexivity.
  assert (Hb' : benign "no-speech" = true) by reflexivity.
  assert (Hn1 : "network" <> "audio-capture") by discriminate.
  assert (Hn2 : "network" <> "not-allowed") by discriminate.
  destruct (error_event_handling listeningWorld "network" 2)
    as (_ & _ & H3 & _ & _ & H6 & _).
  destruct (error_event_handling listeningWorld "no-speech" 2)
    as (_ & H2 & _).
  split; [exact Hb|]. split; [exact Hb'|]. split; [exact Hn1|].
  split; [exact Hn2|]. split; [exact (H3 Hb)|].
  split; [exact (H6 Hn1 Hn2) | exact (H2 Hb')].
Defined.

(** ** Cancellation *)

(** C9, as stated, fails: a second [hardReset] (or [submitAndStop]) right
    after the first leaves a controller that differs from the one after a
    single call: the session identifier has moved on once more. *)
Lemma cancel_twice_counterexample :
  after (hardReset healthy) (after (hardReset healthy) initial)
    <> after (hardReset healthy) initial /\
  after (submitAndStop healthy) (after (submitAndStop healthy) initial)
    <> after (submitAndStop healthy) initial /\
  getSessionId (this (after (hardReset healthy) initial)) = 1 /\
  getSessionId (this (after (hardReset healthy) (after (hardReset healthy) initial)))
    = 2.
Proof.
  split; [vm_compute; discriminate|]. split; [vm_compute; discriminate|].
  split; reflexivity.
Qed.

(** C9, amended. [hardReset] and [submitAndStop] are idempotent but for the
    session identifier: a second call right after the first increments the
    identifier once more, changes nothing else and has no effect at all. Each
    is defined in every world and whatever the engine throws; its only
    possible effect is one [abort] (respectively [stop]) of the engine held,
    so no callback fires; with no session active, as in the initial world,
    it has no effect. *)
Theorem cancellation_idempotent_up_to_session (w : World) (p p' : Platform) :
  let w1 := after (hardReset p) w in
  let v1 := after (submitAndStop p) w in
  hardReset p' w1 =
    (tt,
     mkWorld (set_currentSessionId (currentSessionId (this w1) + 1) (this w1))
       (engines w1) (timers w1),
     []) /\
  submitAndStop p' v1 =
    (tt,
     mkWorld (set_currentSessionId (currentSessionId (this v1) + 1) (this v1))
       (engines v1) (timers v1),
     []) /\
  effects (hardReset p) w = abortIfListening (this w) /\
  effects (submitAndStop p) w = stopIfListening (this w) /\
  Forall (fun e => isCallback e = false) (effects (hardReset p) w) /\
  Forall (fun e => isCallback e = false) (effects (submitAndStop p) w) /\
  effects (hardReset p) initial = [] /\
  effects (submitAndStop p) initial = [].
Proof.
  intros w1 v1. subst w1 v1. unfold effects, after.
  rewrite !hardReset_run, !submitAndStop_run.
  destruct w as [s es ts]; destruct s as [r n a l f i ot oe sc q d].
  unfold abortIfListening, stopIfListening. cbn.
  split; [reflexivity|].
  split; [destruct r; reflexivity|].
  split; [reflexivity|]. split; [reflexivity|].
  split; [|split; [|split; reflexivity]];
    destruct l, r; repeat constructor.
Qed.

(** ** Missing capability *)

(** C10, as stated, fails: the controller holds the transcript "hello " of
    question Q1; the call for question Q2 fails for lack of the capability,
    and the final buffer is empty afterwards. *)
Lemma failed_start_clears_buffer_counterexample :
  finalTranscript (this listeningWorld) = "hello " /\
  result (startListeningForQuestion noEngine "Q2" (Some 3%nat) (Some 4%nat))
    listeningWorld = false /\
  finalTranscript
    (this (after (startListeningForQuestion noEngine "Q2" (Some 3%nat) (Some 4%nat))
             listeningWorld)) = "" /\
  finalTranscript
    (this (after (startListeningForQuestion noEngine "Q2" (Some 3%nat) (Some 4%nat))
             listeningWorld))
    <> finalTranscript (this listeningWorld).
Proof.
  split; [reflexivity|]. split; [reflexivity|]. split; [reflexivity|].
  vm_compute. discriminate.
Qed.

(** C10, amended. When the platform offers no recognition capability,
    [startListeningForQuestion] returns false; by then it has incremented the
    session identifier and let go of the prior engine (handlers removed,
    [abort] called if the controller was listening), and only after that it
    invokes the error callback, if one was given, with "Speech recognition
    not supported". The call installs neither callbacks nor the continuation
    flag. When the question is the one already tracked, both parts of the
    transcript buffer, the continuation flag and the stored callbacks are
    left as they were; when the question differs, the hard reset that comes
    first has emptied both buffer parts, cleared the flag and cleared the
    callbacks. *)
Theorem start_without_capability (p : Platform) (q : QuestionId)
    (onT onE : option Callback) (w : World) :
  hasSpeechRecognition p = false ->
  let m := startListeningForQuestion p q onT onE in
  let s := this w in
  let s' := this (after m w) in
  result m w = false /\
  effects m w =
    abortIfListening s ++
      match onE with
      | Some c => [OnError c "Speech recognition not supported"]
      | None => []
      end /\
  currentSessionId s < currentSessionId s' /\
  recognition s' = None /\
  isListening s' = false /\
  engines (after m w) = unhook (recognition s) (engines w) /\
  (questionChanged (currentQuestionId s) q = false ->
   finalTranscript s' = finalTranscript s /\
   interimTranscript s' = interimTranscript s /\
   shouldContinue s' = shouldContinue s /\
   onTranscriptCallback s' = onTranscriptCallback s /\
   onErrorCallback s' = onErrorCallback s) /\
  (questionChanged (currentQuestionId s) q = true ->
   finalTranscript s' = "" /\
   interimTranscript s' = "" /\
   shouldContinue s' = false /\
   onTranscriptCallback s' = None /\
   onErrorCallback s' = None).
Proof.
  intros Hp m s s'. subst m s s'.
  assert (Hc : canCreate p = false) by (unfold canCreate; rewrite Hp; reflexivity).
  unfold result, effects, after.
  rewrite (start_run_unsupported p q onT onE w Hc). cbn [fst snd this engines].
  split; [reflexivity|]. split; [reflexivity|].
  split; [apply beforeCreate_session_lt|].
  unfold beforeCreate.
  destruct (questionChanged (currentQuestionId (this w)) q); cbn.
  - repeat split; discriminate.
  - repeat split; discriminate.
Qed.

Lemma start_without_capability_witness :
  hasSpeechRecognition noEngine = false /\
  questionChanged (currentQuestionId (this listeningWorld)) "Q1" = false /\
  questionChanged (currentQuestionId (this listeningWorld)) "Q2" = true /\
  effects (startListeningForQuestion noEngine "Q1" (Some 3%nat) (Some 4%nat))
    listeningWorld
    = [EngineCall 0%nat OpAbort; OnError 4%nat "Speech recognition not supported"] /\
  finalTranscript
    (this (after (startListeningForQuestion noEngine "Q1" (Some 3%nat) (Some 4%nat))
             listeningWorld)) = "hello " /\
  finalTranscript
    (this (after (startListeningForQuestion noEngine "Q2" (Some 3%nat) (Some 4%nat))
             listeningWorld)) = "".
Proof.
  assert (Hp : hasSpeechRecognition noEngine = false) by reflexivity.
  assert (Hq1 : questionChanged (currentQuestionId (this listeningWorld)) "Q1"
                = false) by reflexivity.
  assert (Hq2 : questionChanged (currentQuestionId (this listeningWorld)) "Q2"
                = true) by reflexivity.
  destruct (start_without_capability noEngine "Q1" (Some 3%nat) (Some 4%nat)
              listeningWorld Hp) as (_ & He & _ & _ & _ & _ & Hsame & _).
  destruct (start_without_capability noEngine "Q2" (Some 3%nat) (Some 4%nat)
              listeningWorld Hp) as (_ & _ & _ & _ & _ & _ & _ & Hdiff).
  destruct (Hsame Hq1) as (Hf1 & _). destruct (Hdiff Hq2) as (Hf2 & _).
  split; [exact Hp|]. split; [exact Hq1|]. split; [exact Hq2|].
  split; [exact He|]. split; [exact Hf1 | exact Hf2].
Defined.


(** ** [String.prototype.trim] *)

Lemma append_cons (c : ascii) (a b : string) :
  String c a +:+ b = String c (a +:+ b).
Proof. reflexivity. Qed.

Lemma trimStart_split (s : string) :
  exists l, s = l +:+ JS.trimStart s /\ blank l = true /\
            startsBlank (JS.trimStart s) = false.
Proof.
  induction s as [|c r (l & Heq & Hl & Hs)].
  - exists "". repeat split.
  - cbn [JS.trimStart]. destruct (JS.isWhiteSpace c) eqn:Hc.
    + exists (String c l). rewrite append_cons, <- Heq.
      repeat split; [|exact Hs]. cbn [blank]. rewrite Hc, Hl. reflexivity.
    + exists "". repeat split. exact Hc.
Qed.

Lemma trimEnd_split (s : string) :
  exists r, s = JS.trimEnd s +:+ r /\ blank r = true /\
            endsBlank (JS.trimEnd s) = false.
Proof.
  induction s as [|c s (r & Heq & Hr & He)].
  - exists "". repeat split.
  - cbn [JS.trimEnd]. destruct (JS.trimEnd s) as [|d x] eqn:Ht.
    + destruct (JS.isWhiteSpace c) eqn:Hc.
      * exists (String c s). repeat split.
        cbn [blank]. rewrite Hc. cbn. rewrite Heq. exact Hr.
      * exists s. repeat split.
        -- rewrite Heq. exact Hr.
        -- exact Hc.
    + exists r. rewrite append_cons, <- Heq. repeat split; [exact Hr|].
      exact He.
Qed.

Lemma trimEnd_keeps_start (s : string) :
  startsBlank s = false -> startsBlank (JS.trimEnd s) = false.
Proof.
  destruct s as [|c r]; [reflexivity|]. cbn [startsBlank JS.trimEnd].
  intros Hc. destruct (JS.trimEnd r); [rewrite Hc|]; exact Hc.
Qed.

Lemma trimStart_fixed (s : string) :
  startsBlank s = false -> JS.trimStart s = s.
Proof.
  destruct s as [|c r]; [reflexivity|]. cbn. intros ->. reflexivity.
Qed.

Lemma trimEnd_fixed (s : string) :
  endsBlank s = false -> JS.trimEnd s = s.
Proof.
  induction s as [|c r IH]; [reflexivity|]. intros He.
  cbn [JS.trimEnd]. destruct r as [|d x].
  - cbn in *. rewrite He. reflexivity.
  - rewrite IH by exact He. reflexivity.
Qed.

(** [trim] cuts white space off both ends and nothing else: the string
    is a blank prefix, the trimmed string and a blank suffix; the trimmed
    string neither begins nor ends with white space; trimming it again
    changes nothing. *)
Theorem trim_characterised (s : string) :
  (exists l r,
     s = l +:+ (JS.trim s +:+ r) /\ blank l = true /\ blank r = true) /\
  startsBlank (JS.trim s) = false /\
  endsBlank (JS.trim s) = false /\
  JS.trim (JS.trim s) = JS.trim s.
Proof.
  unfold JS.trim.
  destruct (trimStart_split s) as (l & Hl & Hbl & Hs).
  destruct (trimEnd_split (JS.trimStart s)) as (r & Hr & Hbr & He).
  pose proof (trimEnd_keeps_start _ Hs) as Hs'.
  split; [|split; [exact Hs' | split; [exact He|]]].
  - exists l, r. rewrite <- Hr. auto.
  - rewrite (trimStart_fixed _ Hs'). apply trimEnd_fixed, He.
Qed.

(** ** More invariants of reachable worlds *)

Lemma unhook_keeps_shape (o : option Handle) (es : list Recognition) :
  (forall h r, es !! h = Some r -> uniform r /\ configured r) ->
  forall h r, unhook o es !! h = Some r -> uniform r /\ configured r.
Proof.
  intros Hes h r Hl. destruct o as [h0|]; cbn in Hl; [|exact (Hes h r Hl)].
  destruct (decide (h0 = h)) as [->|Hne].
  - rewrite list_lookup_alter_eq in Hl.
    apply fmap_Some in Hl as (r0 & Hr0 & ->).
    destruct (Hes h r0 Hr0) as [_ Hc]. split; [|exact Hc].
    repeat split.
  - rewrite list_lookup_alter_ne in Hl by exact Hne. exact (Hes h r Hl).
Qed.

Lemma inv_initial : inv initial.
Proof.
  split; cbn.
  - apply wf_initial.
  - intros h r Hl. destruct h; discriminate Hl.
  - reflexivity.
  - left; reflexivity.
  - lia.
  - intros t Ht. inversion Ht.
Qed.

Lemma inv_framed (w w' : World) : framed w w' -> inv w -> inv w'.
Proof.
  intros Hf [H1 H2 H3 H4 H5 H6].
  pose proof (wf_framed _ _ Hf H1) as Hwf.
  destruct Hf as [He Ht Hr Hs Ha Hi _ _ _ _]. split.
  - exact Hwf.
  - rewrite He. exact H2.
  - rewrite Hi. exact H3.
  - rewrite Ha, Hs. exact H4.
  - rewrite Hs. exact H5.
  - rewrite Ht, Hs, Hr, He. exact H6.
Qed.

Lemma inv_hardReset (p : Platform) (w : World) :
  inv w -> inv (after (hardReset p) w).
Proof.
  intros Hi. pose proof (wf_hardReset p w (inv_wf w Hi)) as Hwf.
  revert Hwf. unfold after. rewrite hardReset_run. cbn. intros Hwf.
  split; cbn.
  - exact Hwf.
  - apply unhook_keeps_shape, (inv_engines w Hi).
  - reflexivity.
  - left; reflexivity.
  - pose proof (inv_session w Hi). lia.
  - intros t Ht Heq. pose proof (wf_timers w (inv_wf w Hi) t Ht). lia.
Qed.

Lemma inv_submitAndStop (p : Platform) (w : World) :
  inv w -> inv (after (submitAndStop p) w).
Proof.
  intros Hi. pose proof (wf_submitAndStop p w (inv_wf w Hi)) as Hwf.
  revert Hwf. unfold after. rewrite submitAndStop_run. cbn. intros Hwf.
  split; cbn.
  - exact Hwf.
  - exact (inv_engines w Hi).
  - exact (inv_interim w Hi).
  - left; reflexivity.
  - pose proof (inv_session w Hi). lia.
  - intros t Ht Heq. pose proof (wf_timers w (inv_wf w Hi) t Ht). lia.
Qed.

Lemma inv_stopListening (p : Platform) (w : World) :
  inv w -> inv (after (stopListening p) w).
Proof.
  intros Hi. pose proof (wf_stopListening p w (inv_wf w Hi)) as Hwf.
  revert Hwf. unfold after. rewrite stopListening_run. cbn. intros Hwf.
  destruct Hi as [H1 H2 H3 H4 H5 H6]. split; cbn; assumption.
Qed.

Lemma beforeCreate_interim (q : QuestionId) (s : VoiceService) :
  interimTranscript s = "" -> interimTranscript (beforeCreate q s) = "".
Proof.
  intros H. unfold beforeCreate.
  destruct (questionChanged (currentQuestionId s) q); cbn; [reflexivity | exact H].
Qed.

Lemma beforeCreate_active (q : QuestionId) (s : VoiceService) :
  activeSessionId (beforeCreate q s) = Some (currentSessionId (beforeCreate q s)).
Proof.
  unfold beforeCreate.
  destruct (questionChanged (currentQuestionId s) q); reflexivity.
Qed.

Lemma inv_startListeningForQuestion (p : Platform) (q : QuestionId)
    (onT onE : option Callback) (w : World) :
  inv w -> inv (after (startListeningForQuestion p q onT onE) w).
Proof.
  intros Hi.
  pose proof (wf_startListeningForQuestion p q onT onE w (inv_wf w Hi)) as Hwf.
  pose proof (beforeCreate_session_lt q (this w)) as Hlt.
  pose proof (inv_session w Hi) as H0.
  revert Hwf. unfold after. destruct (canCreate p) eqn:Hc.
  - rewrite (start_run_created p q onT onE w Hc). cbn [fst snd]. intros Hwf.
    split; cbn [this engines timers startedState interimTranscript
                  activeSessionId currentSessionId recognition].
    + exact Hwf.
    + intros h r Hl.
      destruct (decide (h < length (engines w))%nat) as [Hin|Hout].
      * rewrite lookup_app_l in Hl by (rewrite length_unhook; exact Hin).
        exact (unhook_keeps_shape _ _ (inv_engines w Hi) h r Hl).
      * rewrite lookup_app_r in Hl by (rewrite length_unhook; lia).
        rewrite length_unhook in Hl.
        destruct (h - length (engines w))%nat as [|k]; cbn in Hl;
          [|destruct k; discriminate Hl].
        injection Hl as <-. repeat split.
    + reflexivity.
    + right. apply beforeCreate_active.
    + lia.
    + intros t Ht Heq. exists (length (engines w)). split; [reflexivity|].
      rewrite lookup_app_r by (rewrite length_unhook; lia).
      rewrite length_unhook, Nat.sub_diag. reflexivity.
  - rewrite (start_run_unsupported p q onT onE w Hc). cbn [fst snd]. intros Hwf.
    split; cbn [this engines timers].
    + exact Hwf.
    + apply unhook_keeps_shape, (inv_engines w Hi).
    + apply beforeCreate_interim, (inv_interim w Hi).
    + right. apply beforeCreate_active.
    + lia.
    + intros t Ht Heq. pose proof (wf_timers w (inv_wf w Hi) t Ht). lia.
Qed.

Lemma inv_timeout (p : Platform) (k : nat) (w : World) :
  inv w -> inv (after (timeout p k) w).
Proof.
  intros Hi. pose proof (wf_timeout p k w (inv_wf w Hi)) as Hwf.
  revert Hwf. unfold after, timeout.
  destruct (timers w !! k) as [t|]; [|intros _; exact Hi].
  rewrite retryStart_run. cbn. intros Hwf.
  destruct Hi as [H1 H2 H3 H4 H5 H6]. split; cbn; try assumption.
  intros t' Ht'. apply H6. eapply list_elem_of_delete_inv; exact Ht'.
Qed.

Lemma inv_step (p : Platform) (i : Input) (w : World) :
  inv w -> inv (after (step p i) w).
Proof.
  intros Hi. destruct i as [q onT onE| | | |h ev|k].
  - rewrite after_start. apply inv_startListeningForQuestion, Hi.
  - apply inv_stopListening, Hi.
  - apply inv_submitAndStop, Hi.
  - apply inv_hardReset, Hi.
  - exact (inv_framed _ _ (fire_framed p h ev w) Hi).
  - apply inv_timeout, Hi.
Qed.

Lemma inv_run (tr : list (Platform * Input)) (w : World) :
  inv w -> inv (run tr w).
Proof.
  revert w. induction tr as [|[p i] rest IH]; intros w Hi; cbn.
  - exact Hi.
  - apply IH, inv_step, Hi.
Qed.

Lemma inv_reachable (w : World) : reachable w -> inv w.
Proof. intros [tr ->]. apply inv_run, inv_initial. Qed.

(** ** One live engine *)

Lemma hooked_shape (r : Recognition) (sid : Z) :
  uniform r -> configured r -> hooked r sid -> r = freshEngine sid.
Proof.
  destruct r as [c i l m a b e d]. unfold uniform, configured, hooked. cbn.
  intros (-> & -> & ->) (-> & -> & -> & ->) [H|[H|[H|H]]]; rewrite H; reflexivity.
Qed.

(** An engine object without handlers ignores every event. *)
Lemma fire_unhooked (p : Platform) (h : Handle) (ev : EngineEvent) (w : World) :
  (forall r sid, engines w !! h = Some r -> ~ hooked r sid) ->
  fire p h ev w = (tt, w, []).
Proof.
  intros Hn. unfold fire. destruct (engines w !! h) as [r|] eqn:Hl; [|reflexivity].
  assert (Hno : forall sid, ~ hooked r sid) by (intros sid; exact (Hn r sid eq_refl)).
  destruct ev.
  - destruct (onstart r) as [sid|] eqn:E; [|reflexivity].
    destruct (Hno sid). left; exact E.
  - destruct (onend r) as [sid|] eqn:E; [|reflexivity].
    destruct (Hno sid). right; left; exact E.
  - destruct (onresult r) as [sid|] eqn:E; [|reflexivity].
    destruct (Hno sid). right; right; left; exact E.
  - destruct (onerror r) as [sid|] eqn:E; [|reflexivity].
    destruct (Hno sid). right; right; right; exact E.
Qed.

(** X1. In every reachable world at most one engine object has handlers
    installed: it is the one the controller holds, all four of its handlers
    captured the same session, which is not a future one, and it carries the
    configuration of [createFreshRecognition]. *)
Theorem one_live_engine (w : World) (h1 h2 : Handle) (r1 r2 : Recognition)
    (s1 s2 : Z) :
  reachable w ->
  engines w !! h1 = Some r1 -> hooked r1 s1 ->
  engines w !! h2 = Some r2 -> hooked r2 s2 ->
  h1 = h2 /\
  recognition (this w) = Some h1 /\
  r1 = freshEngine s1 /\
  s1 <= currentSessionId (this w).
Proof.
  intros Hr Hl1 Hh1 Hl2 Hh2. apply inv_reachable in Hr.
  destruct (wf_hooked w (inv_wf w Hr) h1 r1 s1 Hl1 Hh1) as [Hrec1 Hle].
  destruct (wf_hooked w (inv_wf w Hr) h2 r2 s2 Hl2 Hh2) as [Hrec2 _].
  destruct (inv_engines w Hr h1 r1 Hl1) as [Hu Hc].
  split; [congruence|]. split; [exact Hrec1|]. split; [|exact Hle].
  apply hooked_shape; assumption.
Qed.

Lemma one_live_engine_witness :
  reachable listeningWorld /\
  engines listeningWorld !! 0%nat = Some (freshEngine 2) /\
  hooked (freshEngine 2) 2 /\
  recognition (this listeningWorld) = Some 0%nat.
Proof.
  assert (Hr : reachable listeningWorld) by (eexists; reflexivity).
  assert (Hl : engines listeningWorld !! 0%nat = Some (freshEngine 2))
    by reflexivity.
  assert (Hh : hooked (freshEngine 2) 2) by (left; reflexivity).
  destruct (one_live_engine listeningWorld 0%nat 0%nat (freshEngine 2)
              (freshEngine 2) 2 2 Hr Hl Hh Hl Hh) as (_ & Hrec & _ & _).
  split; [exact Hr|]. split; [exact Hl|]. split; [exact Hh | exact Hrec].
Defined.

Lemma one_live_engine_facts (w : World) (h : Handle) (r : Recognition)
    (sid : Z) :
  reachable w -> engines w !! h = Some r -> hooked r sid ->
  r = freshEngine sid /\ sid <= currentSessionId (this w).
Proof.
  intros Hr Hl Hh. apply inv_reachable in Hr.
  destruct (wf_hooked w (inv_wf w Hr) h r sid Hl Hh) as [_ Hle].
  destruct (inv_engines w Hr h r Hl) as [Hu Hc].
  split; [apply hooked_shape; assumption | exact Hle].
Qed.

(** X2. After [hardReset] no engine object reaches the controller any more:
    in every reachable world, whatever event whichever engine fires next,
    the world stays as it is and nothing is called. *)
Theorem hardReset_silences_every_engine (w : World) (p p' : Platform)
    (h : Handle) (ev : EngineEvent) :
  reachable w ->
  let w' := after (hardReset p) w in
  fire p' h ev w' = (tt, w', []).
Proof.
  intros Hr w'. apply wf_reachable in Hr. apply fire_unhooked.
  subst w'. unfold after. rewrite hardReset_run. cbn.
  intros r sid Hl. exact (unhook_clears w h r sid Hr Hl).
Qed.

Lemma hardReset_silences_every_engine_witness :
  reachable listeningWorld /\
  fire healthy 0%nat (EvResult (mkResultEvent 0 [mkResult "late" true]))
    (after (hardReset healthy) listeningWorld)
    = (tt, after (hardReset healthy) listeningWorld, []).
Proof.
  assert (Hr : reachable listeningWorld) by (eexists; reflexivity).
  split; [exact Hr|].
  exact (hardReset_silences_every_engine listeningWorld healthy healthy 0%nat
           (EvResult (mkResultEvent 0 [mkResult "late" true])) Hr).
Defined.

(** X3. Starting a session silences every engine object built before: in a
    reachable world, after [startListeningForQuestion] (successful or not, for
    the same or another question) an event of any engine other than the one
    just created changes nothing and calls nothing. *)
Theorem start_silences_previous_engines (w : World) (p p' : Platform)
    (q : QuestionId) (onT onE : option Callback) (h : Handle)
    (ev : EngineEvent) :
  reachable w ->
  h <> length (engines w) ->
  let w' := after (startListeningForQuestion p q onT onE) w in
  fire p' h ev w' = (tt, w', []).
Proof.
  intros Hr Hne w'. apply wf_reachable in Hr. apply fire_unhooked.
  subst w'. unfold after. destruct (canCreate p) eqn:Hc.
  - rewrite (start_run_created p q onT onE w Hc). cbn [fst snd engines].
    intros r sid Hl.
    destruct (decide (h < length (engines w))%nat) as [Hin|Hout].
    + rewrite lookup_app_l in Hl by (rewrite length_unhook; exact Hin).
      exact (unhook_clears w h r sid Hr Hl).
    + rewrite lookup_app_r in Hl by (rewrite length_unhook; lia).
      rewrite length_unhook in Hl.
      destruct (h - length (engines w))%nat as [|k] eqn:Hk; [lia|].
      destruct k; discriminate Hl.
  - rewrite (start_run_unsupported p q onT onE w Hc). cbn [fst snd engines].
    intros r sid Hl. exact (unhook_clears w h r sid Hr Hl).
Qed.

Lemma start_silences_previous_engines_witness :
  reachable listeningWorld /\
  0%nat <> length (engines listeningWorld) /\
  fire healthy 0%nat (EvResult (mkResultEvent 0 [mkResult "late" true]))
    (after (startListeningForQuestion healthy "Q1" (Some 1%nat) (Some 2%nat))
       listeningWorld)
    = (tt,
       after (startListeningForQuestion healthy "Q1" (Some 1%nat) (Some 2%nat))
         listeningWorld,
       []).
Proof.
  assert (Hr : reachable listeningWorld) by (eexists; reflexivity).
  assert (Hne : 0%nat <> length (engines listeningWorld))
    by (vm_compute; discriminate).
  split; [exact Hr|]. split; [exact Hne|].
  exact (start_silences_previous_engines listeningWorld healthy healthy "Q1"
           (Some 1%nat) (Some 2%nat) 0%nat
           (EvResult (mkResultEvent 0 [mkResult "late" true])) Hr Hne).
Defined.

(** ** A successful start *)

(** X4. [startListeningForQuestion] returns true exactly when an engine could
    be created and its [start] did not throw. It then holds the new engine,
    whose handlers captured the new current session; both buffer parts are
    empty, the callbacks are those passed in, the continuation flag is set,
    the question is tracked, and the controller is not yet marked as
    listening (that waits for the engine's start event). Nothing is
    scheduled and no callback is invoked: the only calls are the [abort] of
    a previous engine that was listening and the [start] of the new one. *)
Theorem start_succeeds_exactly_when (p : Platform) (q : QuestionId)
    (onT onE : option Callback) (w : World) :
  let m := startListeningForQuestion p q onT onE in
  let s' := this (after m w) in
  let h := length (engines w) in
  (result m w = true <-> canCreate p = true /\ startThrows p = None) /\
  (result m w = true ->
   recognition s' = Some h /\
   engines (after m w) !! h = Some (freshEngine (currentSessionId s')) /\
   activeSessionId s' = Some (currentSessionId s') /\
   currentQuestionId s' = Some q /\
   finalTranscript s' = "" /\ interimTranscript s' = "" /\
   onTranscriptCallback s' = onT /\ onErrorCallback s' = onE /\
   shouldContinue s' = true /\ isActive s' = false /\
   timers (after m w) = timers w /\
   effects m w = abortIfListening (this w) ++ [EngineCall h OpStart]).
Proof.
  intros m s' h. subst m s' h. unfold result, effects, after.
  destruct (canCreate p) eqn:Hc.
  - rewrite (start_run_created p q onT onE w Hc). unfold startOutcome.
    destruct (startThrows p) as [name|] eqn:Hst.
    + assert (Hf : fst (fst (if String.eqb name "InvalidStateError"
                   then if stopThrows p
                        then (false, [] : list Timer,
                              EngineCall (length (engines w)) OpStop
                                :: failedToStart onE)
                        else (false,
                              [mkTimer 100
                                 (currentSessionId (beforeCreate q (this w))) onE],
                              [EngineCall (length (engines w)) OpStop;
                               SetTimeout
                                 (mkTimer 100
                                    (currentSessionId (beforeCreate q (this w)))
                                    onE)])
                   else (false, [], failedToStart onE))) = false).
      { destruct (String.eqb name "InvalidStateError"), (stopThrows p);
          reflexivity. }
      cbn [fst snd]. rewrite Hf. split.
      * split; [discriminate | intros [_ H]; discriminate H].
      * discriminate.
    + cbn [fst snd this engines timers]. split; [tauto|]. intros _.
      split; [reflexivity|]. split.
      { rewrite lookup_app_r by (rewrite length_unhook; lia).
        rewrite length_unhook, Nat.sub_diag. reflexivity. }
      split; [apply beforeCreate_active|].
      split.
      { pose proof (start_question p q onT onE w) as Hq. unfold after in Hq.
        rewrite (start_run_created p q onT onE w Hc) in Hq. exact Hq. }
      rewrite app_nil_r. repeat split.
  - rewrite (start_run_unsupported p q onT onE w Hc). cbn [fst snd]. split.
    + split; [discriminate | intros [H _]; discriminate H].
    + discriminate.
Qed.

Lemma start_succeeds_exactly_when_witness :
  result (startListeningForQuestion healthy "Q1" (Some 1%nat) (Some 2%nat))
    initial = true /\
  recognition
    (this (after (startListeningForQuestion healthy "Q1" (Some 1%nat) (Some 2%nat))
             initial)) = Some 0%nat /\
  effects (startListeningForQuestion healthy "Q1" (Some 1%nat) (Some 2%nat))
    initial = [EngineCall 0%nat OpStart].
Proof.
  destruct (start_succeeds_exactly_when healthy "Q1" (Some 1%nat) (Some 2%nat)
              initial) as [Hiff Hthen].
  assert (Ht : result (startListeningForQuestion healthy "Q1" (Some 1%nat)
                         (Some 2%nat)) initial = true)
    by (apply Hiff; split; reflexivity).
  destruct (Hthen Ht) as (H1 & _ & _ & _ & _ & _ & _ & _ & _ & _ & _ & H12).
  split; [exact Ht|]. split; [exact H1 | exact H12].
Defined.

(** ** Graceful stop *)

(** X5. [stopListening] keeps the session: the identifier, the transcript
    that [getCurrentTranscript] returns and the engine objects are as before;
    the continuation flag is cleared and the controller is not listening. It
    asks the engine to stop exactly when it holds one and was listening, and
    a second [stopListening] changes nothing and calls nothing. The engine's
    last words still arrive: a result event of the current session after the
    stop appends its finalized fragments to the final buffer and is handed
    to the transcript callback. *)
Theorem graceful_stop_keeps_session (w : World) (p p1 p2 : Platform)
    (h : Handle) (r : Recognition) (event : ResultEvent) :
  engines w !! h = Some r ->
  onresult r = Some (currentSessionId (this w)) ->
  let w' := after (stopListening p) w in
  let new := drop (resultIndex event) (results event) in
  getCurrentTranscript (this w') = getCurrentTranscript (this w) /\
  getSessionId (this w') = getSessionId (this w) /\
  engines w' = engines w /\
  shouldContinue (this w') = false /\
  isActive (this w') = false /\
  effects (stopListening p) w
    = match recognition (this w), isListening (this w) with
      | Some held, true => [EngineCall held OpStop]
      | _, _ => []
      end /\
  stopListening p1 w' = (tt, w', []) /\
  finalTranscript (this (after (fire p2 h (EvResult event)) w'))
    = finalTranscript (this w) +:+ finalText new /\
  effects (fire p2 h (EvResult event)) w'
    = match onTranscriptCallback (this w) with
      | Some cb =>
          [OnTranscript cb
             (JS.trim (((finalTranscript (this w) +:+ finalText new) +:+ " ")
                       +:+ interimText new))]
      | None => []
      end.
Proof.
  intros Hl Hres w' new.
  assert (Hw' : w' = mkWorld (set_isListening false
                                (set_shouldContinue false (this w)))
                       (engines w) (timers w)).
  { subst w'. unfold after. rewrite stopListening_run. reflexivity. }
  assert (Hfire : fire p2 h (EvResult event) w'
                  = handle_onresult (currentSessionId (this w')) event w').
  { unfold fire. rewrite Hw'. cbn [engines]. rewrite Hl, Hres. reflexivity. }
  split; [rewrite Hw'; reflexivity|]. split; [rewrite Hw'; reflexivity|].
  split; [rewrite Hw'; reflexivity|]. split; [rewrite Hw'; reflexivity|].
  split; [rewrite Hw'; reflexivity|].
  split; [unfold effects; rewrite stopListening_run; reflexivity|].
  split.
  { rewrite stopListening_run. rewrite Hw'.
    destruct w as [s es ts]; destruct s as [x n a l f i ot oe sc cq d].
    cbn. destruct x; reflexivity. }
  split.
  - unfold after at 1. rewrite Hfire.
    pose proof (final_buffer_appends w' event) as Hfin. unfold after in Hfin.
    rewrite Hfin, Hw'. reflexivity.
  - unfold effects. rewrite Hfire, handle_onresult_current.
    cbn [snd]. unfold consolidated, appendFinal.
    rewrite gatherAll_split. cbn [fst snd]. fold new. rewrite Hw'.
    cbn [this onTranscriptCallback set_isListening set_shouldContinue
           finalTranscript].
    destruct (onTranscriptCallback (this w)); [|reflexivity].
    destruct (finalText new) eqn:E; cbn [JS.truthy].
    + rewrite append_empty_r. reflexivity.
    + reflexivity.
Qed.

Lemma graceful_stop_keeps_session_witness :
  engines listeningWorld !! 0%nat = Some (freshEngine 2) /\
  onresult (freshEngine 2) = Some (currentSessionId (this listeningWorld)) /\
  getCurrentTranscript (this (after (stopListening healthy) listeningWorld))
    = "hello" /\
  finalTranscript
    (this (after (fire healthy 0%nat
                    (EvResult (mkResultEvent 1
                       [mkResult "hello" true; mkResult "world" true])))
             (after (stopListening healthy) listeningWorld)))
    = "hello world ".
Proof.
  assert (Hl : engines listeningWorld !! 0%nat = Some (freshEngine 2))
    by reflexivity.
  assert (Hres : onresult (freshEngine 2)
                 = Some (currentSessionId (this listeningWorld)))
    by reflexivity.
  destruct (graceful_stop_keeps_session listeningWorld healthy healthy healthy
              0%nat (freshEngine 2)
              (mkResultEvent 1 [mkResult "hello" true; mkResult "world" true])
              Hl Hres) as (H1 & _ & _ & _ & _ & _ & _ & H8 & _).
  split; [exact Hl|]. split; [exact Hres|]. split.
  - rewrite H1. reflexivity.
  - rewrite H8. reflexivity.
Defined.

(** X6. The teardown operations swallow whatever the engine throws: the
    world they leave and the calls they make are the same whether [stop] or
    [abort] (or anything else of the platform) throws or not. *)
Theorem teardown_ignores_engine_failures (w : World) (p p' : Platform) :
  hardReset p w = hardReset p' w /\
  submitAndStop p w = submitAndStop p' w /\
  stopListening p w = stopListening p' w /\
  destroyRecognition p w = destroyRecognition p' w.
Proof.
  rewrite !hardReset_run, !submitAndStop_run, !stopListening_run,
    !destroyRecognition_run.
  repeat split.
Qed.

(** ** The retry and its engine *)

(** X7. A retry that is still current acts on the engine of its own session:
    in every reachable world, when a pending timer whose captured session is
    the current one runs out, the controller holds an engine, that engine is
    the one whose handlers captured this very session, and the task calls
    its [start] (reporting "Failed to start voice input" if that throws).
    The controller and the engine objects are untouched and the timer is
    gone from the queue. *)
Theorem retry_restarts_its_own_engine (w : World) (p : Platform) (k : nat)
    (t : Timer) :
  reachable w ->
  timers w !! k = Some t ->
  timerSession t = currentSessionId (this w) ->
  exists h,
    recognition (this w) = Some h /\
    engines w !! h = Some (freshEngine (timerSession t)) /\
    timeout p k w =
      (tt, mkWorld (this w) (engines w) (delete k (timers w)),
       EngineCall h OpStart
         :: (if is_thrown (startThrows p)
             then failedToStart (timerOnError t) else [])).
Proof.
  intros Hr Hk Hcur. apply inv_reachable in Hr.
  destruct (inv_retry w Hr t) as (h & Hrec & Hl);
    [eapply list_elem_of_lookup_2; exact Hk | exact Hcur |].
  exists h. split; [exact Hrec|]. split; [rewrite Hcur; exact Hl|].
  unfold timeout. rewrite Hk, retryStart_run. cbn [this].
  rewrite Hcur, Z.eqb_refl, Hrec. reflexivity.
Qed.

Lemma retry_restarts_its_own_engine_witness :
  reachable retryPending /\
  timers retryPending !! 0%nat = Some (mkTimer 100 2 (Some 2%nat)) /\
  timerSession (mkTimer 100 2 (Some 2%nat))
    = currentSessionId (this retryPending) /\
  effects (timeout healthy 0) retryPending = [EngineCall 0%nat OpStart].
Proof.
  assert (Hr : reachable retryPending)
    by (exists [(busy, CallStart "Q1" (Some 1%nat) (Some 2%nat))];
        vm_compute; reflexivity).
  assert (Hk : timers retryPending !! 0%nat = Some (mkTimer 100 2 (Some 2%nat)))
    by reflexivity.
  assert (Hc : timerSession (mkTimer 100 2 (Some 2%nat))
               = currentSessionId (this retryPending)) by reflexivity.
  destruct (retry_restarts_its_own_engine retryPending healthy 0%nat
              (mkTimer 100 2 (Some 2%nat)) Hr Hk Hc) as (h & Hrec & _ & Hrun).
  split; [exact Hr|]. split; [exact Hk|]. split; [exact Hc|].
  unfold effects. rewrite Hrun. cbn.
  assert (Hh : Some h = Some 0%nat) by (rewrite <- Hrec; reflexivity).
  injection Hh as ->. reflexivity.
Defined.

(** ** Session bookkeeping *)

Lemma step_session (p : Platform) (i : Input) (w : World) :
  currentSessionId (this w) <= currentSessionId (this (after (step p i) w)) /\
  (movesSession i = false ->
   currentSessionId (this (after (step p i) w)) = currentSessionId (this w) /\
   activeSessionId (this (after (step p i) w)) = activeSessionId (this w)).
Proof.
  destruct i as [q onT onE| | | |h ev|k]; cbn [movesSession].
  - rewrite after_start, start_session.
    pose proof (beforeCreate_session_lt q (this w)). split; [lia | discriminate].
  - unfold after. cbn [step]. rewrite stopListening_run. cbn.
    split; [lia | split; reflexivity].
  - unfold after. cbn [step]. rewrite submitAndStop_run. cbn.
    split; [lia | discriminate].
  - unfold after. cbn [step]. rewrite hardReset_run. cbn.
    split; [lia | discriminate].
  - destruct (fire_framed p h ev w) as [_ _ _ Hs Ha _ _ _ _ _]. cbn [step].
    rewrite Hs, Ha. split; [lia | split; reflexivity].
  - unfold after. cbn [step]. unfold timeout.
    destruct (timers w !! k) as [t|]; [rewrite retryStart_run|]; cbn;
      (split; [lia | split; reflexivity]).
Qed.

(** X8. The session identifier never goes down, whatever happens: a call, an
    engine event or a timer. [stopListening], engine events and timers leave
    it, and the active session, exactly as they were. In every reachable
    world the identifier is not negative and the active session is either
    [null] or the current identifier. *)
Theorem session_bookkeeping (w : World) (p : Platform) (i : Input) :
  reachable w ->
  0 <= getSessionId (this w) /\
  (activeSessionId (this w) = None \/
   activeSessionId (this w) = Some (getSessionId (this w))) /\
  getSessionId (this w) <= getSessionId (this (after (step p i) w)) /\
  (movesSession i = false ->
   getSessionId (this (after (step p i) w)) = getSessionId (this w) /\
   activeSessionId (this (after (step p i) w)) = activeSessionId (this w)).
Proof.
  intros Hr. apply inv_reachable in Hr. unfold getSessionId.
  split; [exact (inv_session w Hr)|]. split; [exact (inv_active w Hr)|].
  apply step_session.
Qed.

Lemma session_bookkeeping_witness :
  reachable listeningWorld /\
  movesSession (Fire 0%nat EvEnd) = false /\
  getSessionId (this (after (step healthy (Fire 0%nat EvEnd)) listeningWorld))
    = 2 /\
  activeSessionId (this listeningWorld) = Some 2.
Proof.
  assert (Hr : reachable listeningWorld) by (eexists; reflexivity).
  assert (Hm : movesSession (Fire 0%nat EvEnd) = false) by reflexivity.
  destruct (session_bookkeeping listeningWorld healthy (Fire 0%nat EvEnd) Hr)
    as (_ & _ & _ & Hsame).
  destruct (Hsame Hm) as [Hs _].
  split; [exact Hr|]. split; [exact Hm|]. split.
  - rewrite Hs. reflexivity.
  - reflexivity.
Defined.

(** ** What the transcript buffer holds *)

Lemma trimStart_blank (b : string) : blank b = true -> JS.trimStart b = "".
Proof.
  induction b as [|c r IH]; [reflexivity|]. cbn [blank JS.trimStart].
  intros H. apply andb_true_iff in H as [Hc Hr]. rewrite Hc. exact (IH Hr).
Qed.

Lemma trimEnd_blank (b : string) : blank b = true -> JS.trimEnd b = "".
Proof.
  induction b as [|c r IH]; [reflexivity|]. cbn [blank JS.trimEnd].
  intros H. apply andb_true_iff in H as [Hc Hr]. rewrite (IH Hr), Hc.
  reflexivity.
Qed.

Lemma trimEnd_blank_suffix (s b : string) :
  blank b = true -> JS.trimEnd (s +:+ b) = JS.trimEnd s.
Proof.
  intros Hb. induction s as [|c r IH].
  - exact (trimEnd_blank b Hb).
  - rewrite append_cons. cbn [JS.trimEnd]. rewrite IH. reflexivity.
Qed.

Lemma trim_blank_suffix (s b : string) :
  blank b = true -> JS.trim (s +:+ b) = JS.trim s.
Proof.
  intros Hb. unfold JS.trim. induction s as [|c r IH].
  - change ("" +:+ b) with b. rewrite (trimStart_blank b Hb). reflexivity.
  - rewrite append_cons. cbn [JS.trimStart].
    destruct (JS.isWhiteSpace c); [exact IH|].
    rewrite <- append_cons. apply trimEnd_blank_suffix, Hb.
Qed.

Lemma interim_always_empty_facts (w : World) :
  reachable w ->
  getCurrentTranscript (this w) = JS.trim (finalTranscript (this w)).
Proof.
  intros Hr. apply inv_reachable in Hr.
  unfold getCurrentTranscript. rewrite (inv_interim w Hr), append_empty_r.
  apply trim_blank_suffix. reflexivity.
Qed.

(** X9. In every reachable world the interim part of the buffer is the
    empty string, so [getCurrentTranscript] returns the trimmed final part
    and nothing else. *)
Theorem interim_buffer_always_empty (w : World) :
  reachable w ->
  interimTranscript (this w) = "" /\
  getCurrentTranscript (this w) = JS.trim (finalTranscript (this w)).
Proof.
  intros Hr. apply inv_reachable in Hr.
  pose proof (inv_interim w Hr) as Hi. split; [exact Hi|].
  unfold getCurrentTranscript. rewrite Hi, append_empty_r.
  apply trim_blank_suffix. reflexivity.
Qed.

Lemma interim_buffer_always_empty_witness :
  reachable (after (fire healthy 0%nat (EvResult becauseEvent)) yesItWorks) /\
  getCurrentTranscript
    (this (after (fire healthy 0%nat (EvResult becauseEvent)) yesItWorks))
    = "yes it works".
Proof.
  assert (Hr : reachable
                 (after (fire healthy 0%nat (EvResult becauseEvent)) yesItWorks)).
  { exists [(healthy, CallStart "Q1" (Some 1%nat) (Some 2%nat));
            (healthy, Fire 0%nat EvStart);
            (healthy, Fire 0%nat (EvResult (mkResultEvent 0 [mkResult "yes" true])));
            (healthy, Fire 0%nat
               (EvResult (mkResultEvent 1
                  [mkResult "yes" true; mkResult "it works" true])));
            (healthy, Fire 0%nat (EvResult becauseEvent))].
    vm_compute. reflexivity. }
  split; [exact Hr|].
  destruct (interim_buffer_always_empty _ Hr) as [_ H]. rewrite H.
  vm_compute. reflexivity.
Defined.

Lemma fire_final (p : Platform) (h : Handle) (ev : EngineEvent) (w : World) :
  exists suffix,
    finalTranscript (this (after (fire p h ev) w))
      = finalTranscript (this w) +:+ suffix.
Proof.
  assert (Hsame : exists suffix,
            finalTranscript (this w) = finalTranscript (this w) +:+ suffix)
    by (exists ""; rewrite append_empty_r; reflexivity).
  unfold after, fire. destruct (engines w !! h) as [r|]; [|exact Hsame].
  destruct ev as [| |event|error].
  - destruct (onstart r); exact Hsame.
  - destruct (onend r) as [sid|]; [|exact Hsame]. rewrite handle_onend_run.
    cbn [fst snd this].
    destruct (restarts sid (this w)), (recognition (this w)),
      (is_thrown (startThrows p)); exact Hsame.
  - destruct (onresult r) as [sid|]; [|exact Hsame].
    destruct (Z.eq_dec sid (currentSessionId (this w))) as [->|Hne].
    + eexists. apply final_buffer_appends.
    + rewrite handle_onresult_stale by exact Hne. exact Hsame.
  - destruct (onerror r) as [sid|]; [|exact Hsame].
    destruct (Z.eq_dec sid (currentSessionId (this w))) as [->|Hne].
    + rewrite handle_onerror_current. destruct (benign error); exact Hsame.
    + rewrite handle_onerror_stale by exact Hne. exact Hsame.
Qed.

(** X10. The final part of the buffer is append-only within a session:
    apart from [startListeningForQuestion] and [hardReset], nothing that can
    happen (a stop, a submit, an engine event, a timer) removes or rewrites
    text that is already there; the old text is a prefix of the new. *)
Theorem final_buffer_append_only (p : Platform) (i : Input) (w : World) :
  clearsTranscript i = false ->
  exists suffix,
    finalTranscript (this (after (step p i) w))
      = finalTranscript (this w) +:+ suffix.
Proof.
  intros Hi.
  assert (Hsame : exists suffix,
            finalTranscript (this w) = finalTranscript (this w) +:+ suffix)
    by (exists ""; rewrite append_empty_r; reflexivity).
  destruct i as [q onT onE| | | |h ev|k]; try discriminate Hi; cbn [step].
  - unfold after. rewrite stopListening_run. exact Hsame.
  - unfold after. rewrite submitAndStop_run. exact Hsame.
  - apply fire_final.
  - unfold after, timeout. destruct (timers w !! k); [|exact Hsame].
    rewrite retryStart_run. exact Hsame.
Qed.

Lemma final_buffer_append_only_witness :
  clearsTranscript
    (Fire 0%nat (EvResult (mkResultEvent 1
                   [mkResult "hello" true; mkResult "world" true]))) = false /\
  exists suffix,
    finalTranscript
      (this (after (step healthy
                      (Fire 0%nat (EvResult (mkResultEvent 1
                         [mkResult "hello" true; mkResult "world" true]))))
               listeningWorld))
      = finalTranscript (this listeningWorld) +:+ suffix.
Proof.
  split; [reflexivity|].
  apply (final_buffer_append_only healthy
           (Fire 0%nat (EvResult (mkResultEvent 1
                          [mkResult "hello" true; mkResult "world" true])))
           listeningWorld).
  reflexivity.
Defined.

(** ** What the caller is handed *)

Lemma no_transcript_in_calls (l : list Effect) (cb : Callback) (text : string) :
  Forall (fun e => isCallback e = false) l -> ~ In (OnTranscript cb text) l.
Proof.
  intros Hall Hin.
  pose proof (proj1 (List.Forall_forall _ _) Hall _ Hin) as H.
  discriminate H.
Qed.

Lemma start_never_hands_transcript (p : Platform) (q : QuestionId)
    (onT onE : option Callback) (w : World) (cb : Callback) (text : string) :
  ~ In (OnTranscript cb text) (effects (startListeningForQuestion p q onT onE) w).
Proof.
  unfold effects. intros Hin.
  assert (Hab : ~ In (OnTranscript cb text) (abortIfListening (this w))).
  { unfold abortIfListening.
    destruct (isListening (this w)), (recognition (this w));
      intros H; absurd_in H. }
  destruct (canCreate p) eqn:Hc.
  - rewrite (start_run_created p q onT onE w Hc) in Hin. cbn [snd] in Hin.
    apply in_app_or in Hin as [Hin|Hin]; [exact (Hab Hin)|].
    destruct Hin as [Hin|Hin]; [discriminate Hin|].
    unfold startOutcome, failedToStart in Hin.
    destruct (startThrows p) as [name|]; [|exact Hin].
    destruct (String.eqb name "InvalidStateError"), (stopThrows p), onE;
      absurd_in Hin.
  - rewrite (start_run_unsupported p q onT onE w Hc) in Hin. cbn [snd] in Hin.
    apply in_app_or in Hin as [Hin|Hin]; [exact (Hab Hin)|].
    destruct onE; absurd_in Hin.
Qed.

(** X11. Whatever the controller hands to the transcript callback is
    trimmed: for every input, in every world, a transcript that reaches
    [onTranscript] neither begins nor ends with white space; and so is
    whatever [getCurrentTranscript] returns. *)
Theorem transcripts_are_trimmed (p : Platform) (i : Input) (w : World)
    (cb : Callback) (text : string) (s : VoiceService) :
  (In (OnTranscript cb text) (effects (step p i) w) ->
   startsBlank text = false /\ endsBlank text = false) /\
  startsBlank (getCurrentTranscript s) = false /\
  endsBlank (getCurrentTranscript s) = false.
Proof.
  destruct (trim_characterised
              ((finalTranscript s +:+ " ") +:+ interimTranscript s))
    as (_ & Hs1 & Hs2 & _).
  split; [|split; [exact Hs1 | exact Hs2]].
  intros Hin.
  enough (Ht : exists x, text = JS.trim x).
  { destruct Ht as [x ->].
    destruct (trim_characterised x) as (_ & H1 & H2 & _).
    split; assumption. }
  unfold effects in Hin.
  destruct i as [q onT onE| | | |h ev|k]; cbn [step] in Hin.
  - exfalso. apply (start_never_hands_transcript p q onT onE w cb text).
    unfold effects, bind, ret in *.
    destruct (startListeningForQuestion p q onT onE w) as [[b w'] e].
    cbn in *. rewrite app_nil_r in Hin. exact Hin.
  - rewrite stopListening_run in Hin. cbn in Hin. unfold stopIfListening in Hin.
    destruct (recognition (this w)), (isListening (this w));
      absurd_in Hin.
  - rewrite submitAndStop_run in Hin. cbn in Hin. unfold stopIfListening in Hin.
    destruct (recognition (this w)), (isListening (this w));
      absurd_in Hin.
  - rewrite hardReset_run in Hin. cbn in Hin. unfold abortIfListening in Hin.
    destruct (isListening (this w)), (recognition (this w));
      absurd_in Hin.
  - unfold fire in Hin. destruct (engines w !! h) as [r|]; [|destruct Hin].
    destruct ev as [| |event|error].
    + destruct (onstart r); destruct Hin.
    + destruct (onend r) as [sid|]; [|destruct Hin].
      rewrite handle_onend_run in Hin. cbn [snd] in Hin.
      destruct (restarts sid (this w)), (recognition (this w));
        absurd_in Hin.
    + destruct (onresult r) as [sid|]; [|destruct Hin].
      destruct (Z.eq_dec sid (currentSessionId (this w))) as [->|Hne].
      * rewrite handle_onresult_current in Hin. cbn [snd] in Hin.
        destruct (onTranscriptCallback (this w)); [|destruct Hin].
        destruct Hin as [Hin|[]]. injection Hin as _ <-.
        unfold consolidated. eexists. reflexivity.
      * rewrite handle_onresult_stale in Hin by exact Hne. destruct Hin.
    + destruct (onerror r) as [sid|]; [|destruct Hin].
      destruct (Z.eq_dec sid (currentSessionId (this w))) as [->|Hne].
      * rewrite handle_onerror_current in Hin.
        destruct (benign error); [destruct Hin|]. cbn [snd] in Hin.
        destruct (onErrorCallback (this w)); absurd_in Hin.
      * rewrite handle_onerror_stale in Hin by exact Hne. destruct Hin.
  - unfold timeout in Hin. destruct (timers w !! k) as [t|]; [|destruct Hin].
    rewrite retryStart_run in Hin. cbn [snd this] in Hin.
    unfold failedToStart in Hin.
    destruct (Z.eqb (timerSession t) (currentSessionId (this w)));
      [|destruct Hin].
    destruct (recognition (this w)), (is_thrown (startThrows p)),
      (timerOnError t); absurd_in Hin.
Qed.

Lemma transcripts_are_trimmed_witness :
  In (OnTranscript 1%nat "yes it works  because")
    (effects (step healthy (Fire 0%nat (EvResult becauseEvent))) yesItWorks) /\
  startsBlank "yes it works  because" = false /\
  endsBlank "yes it works  because" = false.
Proof.
  assert (Hin : In (OnTranscript 1%nat "yes it works  because")
                  (effects (step healthy (Fire 0%nat (EvResult becauseEvent)))
                     yesItWorks))
    by (vm_compute; left; reflexivity).
  destruct (transcripts_are_trimmed healthy (Fire 0%nat (EvResult becauseEvent))
              yesItWorks 1%nat "yes it works  because" constructor)
    as (Ht & _).
  destruct (Ht Hin) as [H1 H2].
  split; [exact Hin|]. split; [exact H1 | exact H2].
Defined.

(** X12. A current result event without a new finalized fragment (only
    interim results, an empty result list, or a [resultIndex] at or beyond
    the end of the list) leaves the whole world as it is; the transcript
    callback is still invoked, with the trimmed final buffer followed by the
    interim text, which for an index at or beyond the end is the trimmed
    final buffer alone. *)
Theorem result_event_without_finals (w : World) (event : ResultEvent)
    (cb : Callback) :
  finalText (drop (resultIndex event) (results event)) = "" ->
  onTranscriptCallback (this w) = Some cb ->
  handle_onresult (currentSessionId (this w)) event w =
    (tt, w,
     [OnTranscript cb
        (JS.trim ((finalTranscript (this w) +:+ " ")
                  +:+ interimText (drop (resultIndex event) (results event))))]) /\
  ((length (results event) <= resultIndex event)%nat ->
   handle_onresult (currentSessionId (this w)) event w =
     (tt, w, [OnTranscript cb (JS.trim (finalTranscript (this w)))])).
Proof.
  intros Hf Hcb.
  assert (Hrun : handle_onresult (currentSessionId (this w)) event w =
    (tt, w,
     [OnTranscript cb
        (JS.trim ((finalTranscript (this w) +:+ " ")
                  +:+ interimText (drop (resultIndex event) (results event))))])).
  { rewrite handle_onresult_current. unfold consolidated, appendFinal.
    rewrite gatherAll_split. cbn [fst snd]. rewrite Hf, Hcb. cbn [JS.truthy].
    destruct w as [s es ts]. reflexivity. }
  split; [exact Hrun|]. intros Hlen. rewrite Hrun.
  rewrite drop_ge by exact Hlen. cbn [interimText].
  rewrite append_empty_r, trim_blank_suffix by reflexivity. reflexivity.
Qed.

Lemma result_event_without_finals_witness :
  finalText (drop 5 [mkResult "hello" true]) = "" /\
  onTranscriptCallback (this listeningWorld) = Some 1%nat /\
  (length [mkResult "hello" true] <= 5)%nat /\
  handle_onresult (currentSessionId (this listeningWorld))
    (mkResultEvent 5 [mkResult "hello" true]) listeningWorld
    = (tt, listeningWorld, [OnTranscript 1%nat "hello"]).
Proof.
  assert (Hf : finalText (drop (resultIndex (mkResultEvent 5 [mkResult "hello" true]))
                 (results (mkResultEvent 5 [mkResult "hello" true]))) = "")
    by reflexivity.
  assert (Hcb : onTranscriptCallback (this listeningWorld) = Some 1%nat)
    by (vm_compute; reflexivity).
  assert (Hlen : (length (results (mkResultEvent 5 [mkResult "hello" true]))
                  <= resultIndex (mkResultEvent 5 [mkResult "hello" true]))%nat)
    by (cbn; lia).
  destruct (result_event_without_finals listeningWorld
              (mkResultEvent 5 [mkResult "hello" true]) 1%nat Hf Hcb)
    as [_ Hedge].
  split; [exact Hf|]. split; [exact Hcb|]. split; [exact Hlen|].
  rewrite (Hedge Hlen). vm_compute. reflexivity.
Defined.

(** ** Events after a submit *)

(** X13. The start handler does not look at the session. After
    [submitAndStop], which leaves the engine's handlers in place, a late
    start event of that engine marks the controller as listening again,
    although no session is active; the engine's end event then marks it not
    listening and restarts nothing, because the end handler does compare
    sessions. *)
Theorem late_start_event_after_submit (w : World) (p p1 p2 : Platform)
    (h : Handle) (r : Recognition) (sid : Z) :
  reachable w ->
  engines w !! h = Some r ->
  hooked r sid ->
  let w1 := after (submitAndStop p) w in
  let w2 := after (fire p1 h EvStart) w1 in
  let w3 := after (fire p2 h EvEnd) w2 in
  isActive (this w1) = false /\
  activeSessionId (this w1) = None /\
  isActive (this w2) = true /\
  activeSessionId (this w2) = None /\
  effects (fire p1 h EvStart) w1 = [] /\
  effects (fire p2 h EvEnd) w2 = [] /\
  isActive (this w3) = false.
Proof.
  intros Hr Hl Hh w1 w2 w3.
  destruct (one_live_engine_facts w h r sid Hr Hl Hh) as (-> & Hle).
  assert (H1 : w1 = mkWorld (submittedState (this w)) (engines w) (timers w)).
  { subst w1. unfold after. rewrite submitAndStop_run. reflexivity. }
  assert (H2 : fire p1 h EvStart w1
               = (tt, mkWorld (set_isListening true (this w1)) (engines w1)
                        (timers w1), [])).
  { unfold fire. rewrite H1. cbn [engines]. rewrite Hl. reflexivity. }
  assert (H2' : w2 = mkWorld (set_isListening true (this w1)) (engines w1)
                       (timers w1)).
  { subst w2. unfold after. rewrite H2. reflexivity. }
  assert (H3 : fire p2 h EvEnd w2 = handle_onend p2 sid w2).
  { unfold fire. rewrite H2', H1. cbn [engines]. rewrite Hl. reflexivity. }
  assert (Hstale : restarts sid (this w2) = false).
  { rewrite H2', H1. unfold restarts. cbn.
    destruct (Z.eqb_spec sid (currentSessionId (this w) + 1)); [lia|].
    reflexivity. }
  split; [rewrite H1; reflexivity|]. split; [rewrite H1; reflexivity|].
  split; [rewrite H2'; reflexivity|].
  split; [rewrite H2', H1; reflexivity|].
  split; [unfold effects; rewrite H2; reflexivity|].
  split.
  - unfold effects. rewrite H3, handle_onend_run, Hstale. reflexivity.
  - subst w3. unfold after. rewrite H3, handle_onend_run, Hstale. reflexivity.
Qed.

Lemma late_start_event_after_submit_witness :
  reachable listeningWorld /\
  engines listeningWorld !! 0%nat = Some (freshEngine 2) /\
  hooked (freshEngine 2) 2 /\
  isActive
    (this (after (fire healthy 0%nat EvStart)
             (after (submitAndStop healthy) listeningWorld))) = true.
Proof.
  assert (Hr : reachable listeningWorld) by (eexists; reflexivity).
  assert (Hl : engines listeningWorld !! 0%nat = Some (freshEngine 2))
    by reflexivity.
  assert (Hh : hooked (freshEngine 2) 2) by (left; reflexivity).
  destruct (late_start_event_after_submit listeningWorld healthy healthy healthy
              0%nat (freshEngine 2) 2 Hr Hl Hh) as (_ & _ & H3 & _).
  split; [exact Hr|]. split; [exact Hl|]. split; [exact Hh | exact H3].
Defined.

(** ** The voice button of the interview page *)

Lemma deliver_calls (l : list Effect) (ie : InterviewEngine) :
  Forall (fun e => isCallback e = false) l -> fold_left deliver l ie = ie.
Proof.
  induction 1 as [|e l He _ IH]; [reflexivity|]. cbn [fold_left].
  destruct e; try discriminate He; exact IH.
Qed.

Lemma abortIfListening_calls (s : VoiceService) :
  Forall (fun e => isCallback e = false) (abortIfListening s).
Proof.
  unfold abortIfListening. destruct (isListening s), (recognition s);
    repeat constructor.
Qed.

Lemma stopIfListening_calls (s : VoiceService) :
  Forall (fun e => isCallback e = false) (stopIfListening s).
Proof.
  unfold stopIfListening. destruct (recognition s), (isListening s);
    repeat constructor.
Qed.

(** X14. The voice button does not look at what
    [startListeningForQuestion] returns: a click while not recording always
    leaves the page recording with the button showing "Stop Recording". When
    no engine can be created, the page shows the toast "Voice error: Speech
    recognition not supported" and says it is recording while the controller
    holds no engine and is not listening. *)
Theorem voice_button_ignores_start_failure (p : Platform) (ie : InterviewEngine) :
  isRecording ie = false ->
  let ie' := toggleVoiceRecording p ie in
  isRecording ie' = true /\
  voiceAnswerBtn ie' = StopRecording /\
  (canCreate p = false ->
   recognition (this (voice ie')) = None /\
   isActive (this (voice ie')) = false /\
   answerInput ie' = answerInput ie /\
   toasts ie' = toasts ie ++ ["Voice error: Speech recognition not supported"]).
Proof.
  intros Hrec ie'. subst ie'. unfold toggleVoiceRecording. rewrite Hrec.
  split; [reflexivity|]. split; [reflexivity|].
  intros Hc. unfold onPage, effects, after.
  rewrite (start_run_unsupported p (currentQuestion ie) _ _ (voice ie) Hc).
  cbn [fst snd]. rewrite fold_left_app.
  rewrite (deliver_calls _ _ (abortIfListening_calls (this (voice ie)))).
  cbn. unfold beforeCreate.
  destruct (questionChanged _ _); repeat split.
Qed.

Lemma voice_button_ignores_start_failure_witness :
  isRecording (mkInterviewEngine initial false "Q1" (Some "") VoiceAnswer [])
    = false /\
  canCreate noEngine = false /\
  isRecording
    (toggleVoiceRecording noEngine
       (mkInterviewEngine initial false "Q1" (Some "") VoiceAnswer [])) = true /\
  toasts
    (toggleVoiceRecording noEngine
       (mkInterviewEngine initial false "Q1" (Some "") VoiceAnswer []))
    = ["Voice error: Speech recognition not supported"].
Proof.
  assert (H0 : isRecording
                 (mkInterviewEngine initial false "Q1" (Some "") VoiceAnswer [])
               = false) by reflexivity.
  assert (Hc : canCreate noEngine = false) by reflexivity.
  destruct (voice_button_ignores_start_failure noEngine
              (mkInterviewEngine initial false "Q1" (Some "") VoiceAnswer []) H0)
    as (H1 & _ & H3).
  destruct (H3 Hc) as (_ & _ & _ & H4).
  split; [exact H0|]. split; [exact Hc|]. split; [exact H1 | exact H4].
Defined.

(** X15. A click on the voice button while recording stops the controller
    gracefully and then puts what [getCurrentTranscript] returns into the
    answer box, but only when that is not empty: an empty transcript leaves
    what is in the box. The page is no longer recording, the button shows
    "Voice Answer", no toast is raised and the session identifier is the
    one before. With a reachable controller the text put into the box is
    the trimmed final buffer. *)
Theorem voice_button_stop_fills_answer (p : Platform) (ie : InterviewEngine)
    (typed : string) :
  isRecording ie = true ->
  answerInput ie = Some typed ->
  let ie' := toggleVoiceRecording p ie in
  let transcript := getCurrentTranscript (this (voice ie)) in
  isRecording ie' = false /\
  voiceAnswerBtn ie' = VoiceAnswer /\
  answerInput ie' = Some (if JS.truthy transcript then transcript else typed) /\
  toasts ie' = toasts ie /\
  voice ie' = after (stopListening p) (voice ie) /\
  getSessionId (this (voice ie')) = getSessionId (this (voice ie)) /\
  (reachable (voice ie) ->
   transcript = JS.trim (finalTranscript (this (voice ie)))).
Proof.
  intros Hrec Hbox ie' transcript. subst ie' transcript.
  unfold toggleVoiceRecording. rewrite Hrec.
  unfold onPage, effects, after. rewrite stopListening_run. cbn [fst snd].
  rewrite (deliver_calls _ _ (stopIfListening_calls (this (voice ie)))).
  cbn [set_recording set_voice voice this isRecording currentQuestion
         answerInput voiceAnswerBtn toasts].
  change (getCurrentTranscript
            (set_isListening false (set_shouldContinue false (this (voice ie)))))
    with (getCurrentTranscript (this (voice ie))).
  assert (Hlast : reachable (voice ie) ->
                  getCurrentTranscript (this (voice ie))
                  = JS.trim (finalTranscript (this (voice ie)))).
  { intros Hr. apply (interim_always_empty_facts _ Hr). }
  destruct (JS.truthy (getCurrentTranscript (this (voice ie)))).
  - unfold showTranscript. cbn. rewrite Hbox. cbn. repeat split. exact Hlast.
  - cbn. rewrite Hbox. repeat split. exact Hlast.
Qed.

Lemma voice_button_stop_fills_answer_witness :
  isRecording
    (mkInterviewEngine listeningWorld true "Q1" (Some "typed") StopRecording [])
    = true /\
  answerInput
    (toggleVoiceRecording healthy
       (mkInterviewEngine listeningWorld true "Q1" (Some "typed")
          StopRecording []))
    = Some "hello" /\
  answerInput
    (toggleVoiceRecording healthy
       (mkInterviewEngine initial true "Q1" (Some "typed") StopRecording []))
    = Some "typed".
Proof.
  assert (H0 : forall w,
            isRecording
              (mkInterviewEngine w true "Q1" (Some "typed") StopRecording [])
            = true) by reflexivity.
  assert (Hb : forall w,
            answerInput
              (mkInterviewEngine w true "Q1" (Some "typed") StopRecording [])
            = Some "typed") by reflexivity.
  destruct (voice_button_stop_fills_answer healthy
              (mkInterviewEngine listeningWorld true "Q1" (Some "typed")
                 StopRecording []) "typed" (H0 _) (Hb _))
    as (_ & _ & H3 & _).
  destruct (voice_button_stop_fills_answer healthy
              (mkInterviewEngine initial true "Q1" (Some "typed")
                 StopRecording []) "typed" (H0 _) (Hb _))
    as (_ & _ & H3' & _).
  split; [apply H0|]. split.
  - rewrite H3. vm_compute. reflexivity.
  - rewrite H3'. vm_compute. reflexivity.
Defined.
